(** * bbgo-marketcap: the market-cap rebalancing strategy

    A shallow embedding of [strategy.go] and [float_slice.go], and the
    properties of the weight calculator, the rebalance decision engine and
    the configuration validation.

    Number model.  Go's [float64] is embedded as an exact rational extended
    with the IEEE special values: arithmetic on finite values is exact (no
    rounding, overflow or signed zero), while division by zero, arithmetic on
    infinities and NaN follow IEEE 754 as Go implements it.  bbgo's
    [fixedpoint.Value] is an int64 mantissa with 8 decimals; it is embedded
    as the decimal it denotes, and the conversion from float64, the negation
    and the addition act on the mantissa: truncation to 8 decimals and the
    wrap-around of int64. *)

From Stdlib Require Import QArith Qcanon ZArith Lia.
From stdpp Require Import base decidable numbers option list strings gmap.

Local Open Scope Qc_scope.

(** ** float64 *)

Inductive float64 : Type :=
  | Finite (q : Qc)
  | PosInf
  | NegInf
  | NaN.

Global Instance float64_eq_dec : EqDecision float64.
Proof. solve_decision. Defined.

Definition isFinite (x : float64) : Prop :=
  match x with Finite _ => True | _ => False end.

Global Instance isFinite_dec x : Decision (isFinite x).
Proof. destruct x; simpl; apply _. Defined.

(** An infinity of the given sign. *)
Definition inf (positive : bool) : float64 :=
  if positive then PosInf else NegInf.

(** An infinity multiplied (or a nonzero number divided by zero) takes the
    sign of the finite operand; a zero operand gives NaN. *)
Definition infBySign (positive : bool) (q : Qc) : float64 :=
  match 0 ?= q with
  | Lt => inf positive
  | Gt => inf (negb positive)
  | Eq => NaN
  end.

Definition fopp (x : float64) : float64 :=
  match x with
  | Finite q => Finite (- q)
  | PosInf => NegInf
  | NegInf => PosInf
  | NaN => NaN
  end.

Definition fadd (x y : float64) : float64 :=
  match x, y with
  | Finite a, Finite b => Finite (a + b)
  | NaN, _ | _, NaN => NaN
  | PosInf, NegInf | NegInf, PosInf => NaN
  | PosInf, _ | _, PosInf => PosInf
  | NegInf, _ | _, NegInf => NegInf
  end.

Definition fsub (x y : float64) : float64 := fadd x (fopp y).

Definition fmul (x y : float64) : float64 :=
  match x, y with
  | Finite a, Finite b => Finite (a * b)
  | NaN, _ | _, NaN => NaN
  | Finite a, PosInf | PosInf, Finite a => infBySign true a
  | Finite a, NegInf | NegInf, Finite a => infBySign false a
  | PosInf, PosInf | NegInf, NegInf => PosInf
  | PosInf, NegInf | NegInf, PosInf => NegInf
  end.

Definition fdiv (x y : float64) : float64 :=
  match x, y with
  | Finite a, Finite b =>
      if decide (b = 0) then infBySign true a else Finite (a / b)
  | NaN, _ | _, NaN => NaN
  | Finite _, (PosInf | NegInf) => Finite 0
  | PosInf, Finite b => inf (bool_decide (0 <= b))
  | NegInf, Finite b => inf (bool_decide (b < 0))
  | (PosInf | NegInf), (PosInf | NegInf) => NaN
  end.

(** [math.Abs]. *)
Definition fabs (x : float64) : float64 :=
  match x with
  | Finite q => Finite (if decide (q < 0) then - q else q)
  | PosInf | NegInf => PosInf
  | NaN => NaN
  end.

(** Go's [<] on float64: false as soon as an operand is NaN. *)
Definition fltb (x y : float64) : bool :=
  match x, y with
  | Finite a, Finite b => bool_decide (a < b)
  | NegInf, (Finite _ | PosInf) => true
  | Finite _, PosInf => true
  | _, _ => false
  end.

Declare Scope float_scope.
Delimit Scope float_scope with float.
Bind Scope float_scope with float64.
Infix "+" := fadd : float_scope.
Infix "-" := fsub : float_scope.
Infix "*" := fmul : float_scope.
Infix "/" := fdiv : float_scope.
Infix "<?" := fltb : float_scope.

(** Decimal literal [n / d] as a float64. *)
Definition lit (n : Z) (d : positive) : float64 := Finite (Q2Qc (n # d)).

(** ** Panics and indexing

    A Go slice index out of range, and an explicit [panic(msg)], abort the
    call; [result] records which one happened. *)

Inductive panic : Type :=
  | IndexOutOfRange (index : Z) (len : nat)
  | PanicMessage (msg : string).

Inductive result (A : Type) : Type :=
  | Ok (a : A)
  | Panicked (p : panic).
Global Arguments Ok {A} a.
Global Arguments Panicked {A} p.

Definition bind {A B} (r : result A) (k : A -> result B) : result B :=
  match r with
  | Ok a => k a
  | Panicked p => Panicked p
  end.

Notation "x <- r ;; k" := (bind r (fun x => k))
  (at level 100, r at next level, right associativity, only parsing).

Definition returns {A} (r : result A) : Prop :=
  match r with Ok _ => True | Panicked _ => False end.

(** [s[i]] for an [int] index. *)
Definition index {A} (s : list A) (i : Z) : result A :=
  if decide (i < 0)%Z then Panicked (IndexOutOfRange i (length s))
  else match s !! Z.to_nat i with
       | Some x => Ok x
       | None => Panicked (IndexOutOfRange i (length s))
       end.

(** Go's [error] values are carried by their message. *)
Definition error : Type := string.

(** ** Package fixedpoint (bbgo) *)

Module fixedpoint.

(** A [Value] is identified with the decimal it denotes, its int64 mantissa
    divided by 10^8. *)
Definition Value : Type := Qc.

Definition Float64 (v : Value) : float64 := Finite v.

Definition Sign (v : Value) : Z :=
  if decide (0 < v) then 1%Z
  else if decide (v = 0) then 0%Z
  else (-1)%Z.

(** *** The int64 mantissa

    A [Value] is the int64 [mantissa] of a decimal with 8 places. *)

Definition DefaultPow : Z := 100000000.
Definition MinInt64 : Z := -9223372036854775808.
Definition MaxInt64 : Z := 9223372036854775807.

(** Two's complement wrap-around of int64 arithmetic. *)
Definition wrap64 (z : Z) : Z :=
  ((z + 9223372036854775808) mod 18446744073709551616
   - 9223372036854775808)%Z.

(** The number times [DefaultPow], truncated toward zero. *)
Definition mantissa (v : Qc) : Z :=
  (Qnum (this v) * DefaultPow ÷ Zpos (Qden (this v)))%Z.

Definition fromMantissa (m : Z) : Value := Q2Qc (m # 100000000).

(** [if v < 0 { return -v }; return v], the negation being the one of
    int64: the smallest int64 is its own negation. *)
Definition Abs (v : Value) : Value :=
  if decide (v < 0) then fromMantissa (wrap64 (- mantissa v)) else v.

(** The addition of int64 mantissas. *)
Definition Add (v v2 : Value) : Value :=
  fromMantissa (wrap64 (mantissa v + mantissa v2)).

(** [Value(int64(val * DefaultPow))]: the conversion truncates toward zero.
    What it yields for NaN, for an infinity and for a number whose mantissa
    does not fit in int64 is implementation-specific in Go; [castNonFinite]
    stands for whatever the platform yields there, and the properties
    stated for every [castNonFinite] hold for each choice. *)
Definition NewFromFloat (castNonFinite : float64 -> Value) (val : float64)
  : Value :=
  match val with
  | Finite q =>
      if decide (MinInt64 <= mantissa q <= MaxInt64)%Z
      then fromMantissa (mantissa q)
      else castNonFinite val
  | _ => castNonFinite val
  end.

End fixedpoint.

(** ** Package types (bbgo) *)

Module types.

Abbreviation Float64Slice := (list float64).

(** [sum := 0.0; for _, v := range s { sum += v }] *)
Definition Sum (s : Float64Slice) : float64 :=
  fold_left fadd s (Finite 0).

Definition DivScalar (s : Float64Slice) (x : float64) : Float64Slice :=
  (fun v => v / x)%float <$> s.

Definition MulScalar (s : Float64Slice) (x : float64) : Float64Slice :=
  (fun v => v * x)%float <$> s.

(** Elementwise product; the two slices must have the same length. *)
Definition Mul (s other : Float64Slice) : result Float64Slice :=
  if decide (length s = length other) then Ok (zip_with fmul s other)
  else Panicked (PanicMessage "slice lengths do not match").

Inductive SideType : Type := SideTypeBuy | SideTypeSell.
Inductive OrderType : Type := OrderTypeLimit | OrderTypeMarket.

Global Instance SideType_eq_dec : EqDecision SideType.
Proof. solve_decision. Defined.
Global Instance OrderType_eq_dec : EqDecision OrderType.
Proof. solve_decision. Defined.

Record SubmitOrder : Type := mkSubmitOrder {
  Symbol : string;
  Side : SideType;
  Type_ : OrderType;
  Quantity : fixedpoint.Value;
  Price : fixedpoint.Value;
}.

Record Balance : Type := mkBalance {
  Available : fixedpoint.Value;
  Locked : fixedpoint.Value;
}.

Definition Total (b : Balance) : fixedpoint.Value :=
  fixedpoint.Add (Available b) (Locked b).

(** [map[string]Balance]: a missing key reads as the zero [Balance]. *)
Abbreviation BalanceMap := (gmap string Balance).

Definition lookupBalance (balances : BalanceMap) (currency : string)
  : Balance :=
  default (mkBalance 0 0) (balances !! currency).

Record Ticker : Type := mkTicker { Last : fixedpoint.Value }.

End types.

(** ** Collaborators *)

Module glassnode.
(** The market-cap source, as it answers during one rebalance cycle:
    [(marketCap, err)] per currency. *)
Record DataSource : Type := mkDataSource {
  QueryMarketCapInUSD : string -> float64 * option error;
}.
End glassnode.

Module bbgo.

(** The exchange of a session, as it answers during one cycle. *)
Record ExchangeSession : Type := mkExchangeSession {
  QueryTicker : string -> types.Ticker * option error;
  Balances : types.BalanceMap;
}.

(** Modelled from the spec: [AdjustQuantityByMaxAmount] belongs to bbgo and
    is not part of the sources.  Section 4.4 step 6: cap the traded quantity
    so that quantity * price <= maxAmount; if the uncapped notional exceeds
    maxAmount, the quantity becomes maxAmount / price. *)
Definition AdjustQuantityByMaxAmount
  (quantity currentPrice maxAmount : fixedpoint.Value) : fixedpoint.Value :=
  if decide (maxAmount < quantity * currentPrice)
  then maxAmount / currentPrice
  else quantity.

End bbgo.

Import types.

(** ** float_slice.go *)

Definition Normalize (s : Float64Slice) : Float64Slice :=
  DivScalar s (Sum s).

(** ** strategy.go *)

Import fixedpoint.

Record Strategy : Type := mkStrategy {
  glassnode : glassnode.DataSource;
  Interval : string;
  BaseCurrency : string;
  BaseWeight : Value;
  TargetCurrencies : list string;
  Threshold : Value;
  IgnoreLocked : bool;
  Verbose : bool;
  DryRun : bool;
  (* max amount to buy or sell per order *)
  MaxAmount : Value;
}.

(** The [range] loop of [Validate] over the target currencies. *)
Fixpoint validateTargets (baseCurrency : string) (currencies : list string)
  : option error :=
  match currencies with
  | [] => None
  | c :: rest =>
      if decide (c = baseCurrency)
      then Some "targetCurrencies contain baseCurrency"
      else validateTargets baseCurrency rest
  end.

Definition Validate (s : Strategy) : option error :=
  if decide (length (TargetCurrencies s) = 0%nat)
  then Some "taretCurrencies should not be empty"
  else
    match validateTargets (BaseCurrency s) (TargetCurrencies s) with
    | Some err => Some err
    | None =>
        if decide (Threshold s < 0)
        then Some "threshold should not less than 0"
        else if decide (Sign (MaxAmount s) < 0)%Z
        then Some "maxAmount shoud not less than 0"
        else None
    end.

(** The [range] loop of [getTargetWeights]: the market caps gathered so far
    are in [weights]; a failed query returns [nil, err]. *)
Fixpoint queryMarketCaps (source : glassnode.DataSource)
  (currencies : list string) (weights : Float64Slice)
  : Float64Slice * option error :=
  match currencies with
  | [] => (weights, None)
  | currency :: rest =>
      let '(marketCap, err) := glassnode.QueryMarketCapInUSD source currency in
      match err with
      | Some e => ([], Some e)
      | None => queryMarketCaps source rest (weights ++ [marketCap])
      end
  end.

Definition getTargetWeights (s : Strategy) : Float64Slice * option error :=
  (* get market cap values *)
  match queryMarketCaps (glassnode s) (TargetCurrencies s) [] with
  | (_, Some err) => ([], Some err)
  | (weights, None) =>
      (* normalize *)
      let weights := Normalize weights in
      (* rescale by 1 - baseWeight *)
      let weights :=
        MulScalar weights (Finite 1 - Float64 (BaseWeight s))%float in
      (* append base weight *)
      let weights := weights ++ [Float64 (BaseWeight s)] in
      (weights, None)
  end.

(** The [range] loop of [getPrices]; a failed ticker query returns the prices
    gathered so far together with the error. *)
Fixpoint queryPrices (session : bbgo.ExchangeSession) (baseCurrency : string)
  (currencies : list string) (prices : Float64Slice)
  : Float64Slice * option error :=
  match currencies with
  | [] => (prices, None)
  | currency :: rest =>
      let symbol := currency +:+ baseCurrency in
      let '(ticker, err) := bbgo.QueryTicker session symbol in
      match err with
      | Some e => (prices, Some e)
      | None =>
          queryPrices session baseCurrency rest
            (prices ++ [Float64 (Last ticker)])
      end
  end.

Definition getPrices (s : Strategy) (session : bbgo.ExchangeSession)
  : Float64Slice * option error :=
  match queryPrices session (BaseCurrency s) (TargetCurrencies s) [] with
  | (prices, Some err) => (prices, Some err)
  | (prices, None) =>
      (* append base currency price *)
      (prices ++ [Finite 1], None)
  end.

Definition quantityOf (s : Strategy) (balances : BalanceMap)
  (currency : string) : float64 :=
  if IgnoreLocked s
  then Float64 (Total (lookupBalance balances currency))
  else Float64 (Available (lookupBalance balances currency)).

Definition getQuantities (s : Strategy) (balances : BalanceMap)
  : Float64Slice :=
  let quantities :=
    fold_left (fun quantities currency =>
                 quantities ++ [quantityOf s balances currency])
              (TargetCurrencies s) [] in
  (* append base currency quantity *)
  quantities ++ [quantityOf s balances (BaseCurrency s)].

Section Orders.

(** What the platform makes of a NaN, an infinity or a number out of the
    range of int64 converted to a [Value]. *)
Context (castNonFinite : float64 -> Value).

Local Abbreviation NewFromFloat := (fixedpoint.NewFromFloat castNonFinite).

(** The body of the loop of [generateSubmitOrders] for the currency at
    index [i]: [Ok None] is the [continue] of the dead-band, [Ok (Some o)]
    the order that is appended.  The [log.Infof] calls have no part in the
    result and are left out. *)
Definition submitOrderAt (s : Strategy)
  (prices currentWeights targetWeights : Float64Slice)
  (totalValue : float64) (i : nat) (currency : string)
  : result (option SubmitOrder) :=
  let symbol := currency +:+ BaseCurrency s in
  currentWeight <- index currentWeights (Z.of_nat i) ;;
  currentPrice <- index prices (Z.of_nat i) ;;
  targetWeight <- index targetWeights (Z.of_nat i) ;;
  (* calculate the difference between current weight and target weight
     if the difference is less than threshold, then we will not create
     the order *)
  let weightDifference := (targetWeight - currentWeight)%float in
  if (fabs weightDifference <? Float64 (Threshold s))%float
  then Ok None
  else
    let quantity :=
      NewFromFloat ((weightDifference * totalValue) / currentPrice)%float in
    let '(side, quantity) :=
      if decide (Sign quantity < 0)%Z
      then (SideTypeSell, Abs quantity)
      else (SideTypeBuy, quantity) in
    let quantity :=
      if decide (Sign (MaxAmount s) > 0)%Z
      then bbgo.AdjustQuantityByMaxAmount quantity
             (NewFromFloat currentPrice) (MaxAmount s)
      else quantity in
    Ok (Some {| Symbol := symbol;
                Side := side;
                Type_ := OrderTypeLimit;
                Quantity := quantity;
                Price := NewFromFloat currentPrice |}).

Fixpoint submitOrdersFrom (s : Strategy)
  (prices currentWeights targetWeights : Float64Slice)
  (totalValue : float64) (i : nat) (currencies : list string)
  (submitOrders : list SubmitOrder) : result (list SubmitOrder) :=
  match currencies with
  | [] => Ok submitOrders
  | currency :: rest =>
      o <- submitOrderAt s prices currentWeights targetWeights totalValue
             i currency ;;
      match o with
      | None =>
          submitOrdersFrom s prices currentWeights targetWeights totalValue
            (S i) rest submitOrders
      | Some order =>
          submitOrdersFrom s prices currentWeights targetWeights totalValue
            (S i) rest (submitOrders ++ [order])
      end
  end.

Definition generateSubmitOrders (s : Strategy)
  (prices marketValues targetWeights : Float64Slice)
  : result (list SubmitOrder) :=
  let currentWeights := Normalize marketValues in
  let totalValue := Sum marketValues in
  submitOrdersFrom s prices currentWeights targetWeights totalValue
    0 (TargetCurrencies s) [].

End Orders.

(** One line of [log.Infof] output of [logAssets]: the asset, its weight and
    its quantity. *)
Record assetLog : Type := mkAssetLog {
  logAsset : string;
  logWeight : float64;
  logQty : float64;
}.

Fixpoint logTargets (weights quantities : Float64Slice) (i : nat)
  (assets : list string) (lines : list assetLog) : result (list assetLog) :=
  match assets with
  | [] => Ok lines
  | asset :: rest =>
      weight <- index weights (Z.of_nat i) ;;
      qty <- index quantities (Z.of_nat i) ;;
      logTargets weights quantities (S i) rest
        (lines ++ [mkAssetLog asset weight qty])
  end.

Definition logAssets (s : Strategy)
  (marketValues prices quantities : Float64Slice) : result (list assetLog) :=
  let weights := Normalize marketValues in
  if decide (Z.of_nat (length weights) - 1 ≠
             Z.of_nat (length (TargetCurrencies s)))%Z
  then Panicked (PanicMessage "len(weights)-1 != len(s.TargetCurrencies)")
  else
    lines <- logTargets weights quantities 0 (TargetCurrencies s) [] ;;
    weight <- index weights (Z.of_nat (length weights) - 1) ;;
    qty <- index quantities (Z.of_nat (length quantities) - 1) ;;
    Ok (lines ++ [mkAssetLog (BaseCurrency s) weight qty]).

(** ** Auxiliary definitions for the statements *)

(** The exact sum of a list of rationals. *)
Definition qsum (qs : list Qc) : Qc := foldr Qcplus 0 qs.

(** The slice holding the given finite numbers. *)
Definition finiteSlice (qs : list Qc) : Float64Slice := Finite <$> qs.

(** The rational a finite float64 stands for, to display results. *)
Definition exactValue (x : float64) : option Q :=
  match x with
  | Finite q => Some (this q)
  | _ => None
  end.

(** An order as symbol, side, quantity and price. *)
Definition orderView (o : SubmitOrder) : string * SideType * Q * Q :=
  (Symbol o, Side o, this (Quantity o), this (Price o)).

(** A market-cap source answering from a table; an unknown currency is a
    failed query. *)
Definition tableSource (table : list (string * float64))
  : glassnode.DataSource :=
  glassnode.mkDataSource (fun currency =>
    match list_find (fun entry => entry.1 = currency) table with
    | Some (_, (_, marketCap)) => (marketCap, None)
    | None => (Finite 0, Some ("no market cap for " +:+ currency))
    end).

(** The configuration of the scenarios of the specification: targets A and B
    against USD, market caps 300 and 700, base weight 0.2, threshold 0.05. *)
Definition scenarioSource : glassnode.DataSource :=
  tableSource [("A", lit 300 1); ("B", lit 700 1)].

Definition scenario : Strategy :=
  {| glassnode := scenarioSource;
     Interval := "1h";
     BaseCurrency := "USD";
     BaseWeight := Q2Qc (2 # 10);
     TargetCurrencies := ["A"; "B"];
     Threshold := Q2Qc (5 # 100);
     IgnoreLocked := false;
     Verbose := false;
     DryRun := false;
     MaxAmount := 0 |}.

(** The same configuration with another threshold and per-order cap. *)
Definition scenarioWith (threshold maxAmount : Value) : Strategy :=
  {| glassnode := scenarioSource;
     Interval := "1h";
     BaseCurrency := "USD";
     BaseWeight := Q2Qc (2 # 10);
     TargetCurrencies := ["A"; "B"];
     Threshold := threshold;
     IgnoreLocked := false;
     Verbose := false;
     DryRun := false;
     MaxAmount := maxAmount |}.

(** The configuration of the scenarios with a target, C, that the market-cap
    source does not know. *)
Definition failingScenario : Strategy :=
  {| glassnode := scenarioSource;
     Interval := "1h";
     BaseCurrency := "USD";
     BaseWeight := Q2Qc (2 # 10);
     TargetCurrencies := ["A"; "C"; "B"];
     Threshold := Q2Qc (5 # 100);
     IgnoreLocked := false;
     Verbose := false;
     DryRun := false;
     MaxAmount := 0 |}.

(** The target weights of the scenarios: 0.24, 0.56 and 0.2. *)
Definition scenarioTargetWeights : Float64Slice :=
  [lit 24 100; lit 56 100; lit 20 100].

(** A portfolio whose weights are 0.25, 0.25 and 0.5, with targets equal to
    them. *)
Definition balancedValues : Float64Slice := [lit 1 1; lit 1 1; lit 2 1].
Definition balancedWeights : Float64Slice := [lit 1 4; lit 1 4; lit 1 2].
Definition unitPrices : Float64Slice := [lit 1 1; lit 1 1; lit 1 1].

(** The scenario with a threshold of zero and no cap. *)
Definition zeroThreshold : Strategy := scenarioWith 0 0.

(** The scenario with a threshold of zero and a cap of 100 per order, and a
    portfolio on target under the prices 2, 4 and 1. *)
Definition zeroThresholdCapped : Strategy := scenarioWith 0 (Q2Qc 100).
Definition onTargetPrices : Float64Slice := [lit 2 1; lit 4 1; lit 1 1].
Definition onTargetValues : Float64Slice := [lit 2 1; lit 2 1; lit 4 1].

(** The conversion of NaN, of the infinities and of the numbers out of
    range on amd64: the smallest int64 mantissa, -92233720368.54775808 as a
    [Value]. *)
Definition amd64Cast (_ : float64) : Value :=
  Q2Qc (-9223372036854775808 # 100000000).

(** The quantity of the trade of one asset as [generateSubmitOrders] first
    computes it, before the side is split off and the cap applied. *)
Definition rawQuantity (castNonFinite : float64 -> Value)
  (totalValue currentWeight currentPrice targetWeight : float64) : Value :=
  fixedpoint.NewFromFloat castNonFinite
    (((targetWeight - currentWeight) * totalValue) / currentPrice)%float.

(** ** The rest of strategy.go *)

Definition getSymbols (s : Strategy) : list string :=
  fold_left (fun symbols currency => symbols ++ [currency +:+ BaseCurrency s])
            (TargetCurrencies s) [].

(** [types.Order]: an order as the exchange created it. *)
Record Order : Type := mkOrder {
  OrderID : N;
  Submitted : SubmitOrder;
}.

(** [bbgo.OrderExecutor], as it answers during one cycle. *)
Record OrderExecutor : Type := mkOrderExecutor {
  CancelOrders : list Order -> option error;
  SubmitOrders : list SubmitOrder -> list Order * option error;
}.

(** What one call of [rebalance] did: the error it returned, the orders it
    asked to cancel, the orders it submitted when [SubmitOrders] was called,
    and the order store it leaves. *)
Record cycle (Store : Type) : Type := mkCycle {
  cycleError : option error;
  cancelRequest : list Order;
  submitRequest : option (list SubmitOrder);
  cycleStore : Store;
}.
Global Arguments mkCycle {Store} _ _ _ _.
Global Arguments cycleError {Store} _.
Global Arguments cancelRequest {Store} _.
Global Arguments submitRequest {Store} _.
Global Arguments cycleStore {Store} _.

Section Rebalance.

Context (castNonFinite : float64 -> Value).

(** [bbgo.OrderStore] is used through its two methods [Orders] and [Add]. *)
Context {Store : Type}.
Context (storeOrders : Store -> list Order).
Context (storeAdd : Store -> list Order -> Store).

(** One cycle.  The executor, the exchange and the market-cap source answer
    as functions within the cycle; the log lines are left out. *)
Definition rebalance (s : Strategy) (orderExecutor : OrderExecutor)
  (session : bbgo.ExchangeSession) (orderStore : Store)
  : result (cycle Store) :=
  let openOrders := storeOrders orderStore in
  match CancelOrders orderExecutor openOrders with
  | Some err => Ok (mkCycle (Some err) openOrders None orderStore)
  | None =>
      match getPrices s session with
      | (_, Some err) => Ok (mkCycle (Some err) openOrders None orderStore)
      | (prices, None) =>
          match getTargetWeights s with
          | (_, Some err) =>
              Ok (mkCycle (Some err) openOrders None orderStore)
          | (targetWeights, None) =>
              let balances := bbgo.Balances session in
              let quantities := getQuantities s balances in
              marketValues <- Mul prices quantities ;;
              _ <- logAssets s marketValues prices quantities ;;
              orders <- generateSubmitOrders castNonFinite s prices
                          marketValues targetWeights ;;
              if DryRun s
              then Ok (mkCycle None openOrders None orderStore)
              else
                match SubmitOrders orderExecutor orders with
                | (_, Some err) =>
                    Ok (mkCycle (Some err) openOrders (Some orders)
                          orderStore)
                | (createdOrders, None) =>
                    Ok (mkCycle None openOrders (Some orders)
                          (storeAdd orderStore createdOrders))
                end
          end
      end
  end.

End Rebalance.

(** The exchange answering tickers from a table, with the given balances. *)
Definition tableSession (tickers : list (string * Value))
  (balances : BalanceMap) : bbgo.ExchangeSession :=
  bbgo.mkExchangeSession
    (fun symbol =>
       match list_find (fun entry => entry.1 = symbol) tickers with
       | Some (_, (_, last)) => (mkTicker last, None)
       | None => (mkTicker 0, Some ("no ticker for " +:+ symbol))
       end)
    balances.

(** The exchange of the scenarios: A at 10 and B at 20 against USD, holding
    5 A, 1 B and 50 USD. *)
Definition scenarioSession : bbgo.ExchangeSession :=
  tableSession [("AUSD", Q2Qc 10); ("BUSD", Q2Qc 20)]
    {[ "A" := mkBalance (Q2Qc 5) 0;
       "B" := mkBalance (Q2Qc 1) 0;
       "USD" := mkBalance (Q2Qc 50) 0 ]}.

(** An executor that accepts everything and numbers the created orders from
    1, and a store kept as the list of its orders. *)
Definition acceptingExecutor : OrderExecutor :=
  mkOrderExecutor (fun _ => None)
    (fun orders => (imap (fun i o => mkOrder (N.of_nat (S i)) o) orders, None)).

Definition listStoreAdd (store orders : list Order) : list Order :=
  store ++ orders.

(** The scenario with the market caps quoted in hundreds: 3 and 7. *)
Definition scenarioInHundreds : Strategy :=
  {| glassnode := tableSource [("A", lit 3 1); ("B", lit 7 1)];
     Interval := "1h";
     BaseCurrency := "USD";
     BaseWeight := Q2Qc (2 # 10);
     TargetCurrencies := ["A"; "B"];
     Threshold := Q2Qc (5 # 100);
     IgnoreLocked := false;
     Verbose := false;
     DryRun := false;
     MaxAmount := 0 |}.

(** The prices, market values and target weights of the scenarios as
    numbers, and the scenario with a cap of 10 per order. *)
Definition scenarioPrices : list Qc := [Q2Qc 10; Q2Qc 20; Q2Qc 1].
Definition scenarioValues : list Qc := [Q2Qc 50; Q2Qc 20; Q2Qc 50].
Definition scenarioTargets : list Qc :=
  [Q2Qc (24 # 100); Q2Qc (56 # 100); Q2Qc (20 # 100)].
Definition cappedScenario : Strategy :=
  scenarioWith (Q2Qc (5 # 100)) (Q2Qc 10).

(** An exchange that has no ticker for BUSD. *)
Definition failingSession : bbgo.ExchangeSession :=
  tableSession [("AUSD", Q2Qc 10)] ∅.

(** The market values of an account that holds nothing. *)
Definition emptyAccountValues : Float64Slice := [lit 0 1; lit 0 1; lit 0 1].

(** ** Lemmas on float64 and slices *)

Lemma Qc_canon_eq (p q : Qc) : (this p == this q)%Q -> p = q.
Proof. apply Qc_is_canon. Qed.

Lemma fdiv_zero_not_finite (x : float64) : ¬ isFinite (x / Finite 0)%float.
Proof.
  destruct x as [q| | |]; unfold fdiv; try (simpl; tauto).
  rewrite decide_True by reflexivity.
  unfold infBySign. destruct (0 ?= q); simpl; tauto.
Qed.

Lemma fold_left_fadd_finite (qs : list Qc) (a : Qc) :
  fold_left fadd (finiteSlice qs) (Finite a) = Finite (a + qsum qs).
Proof.
  revert a. induction qs as [|q qs IH]; intros a; simpl.
  - by rewrite Qcplus_0_r.
  - unfold finiteSlice in IH. rewrite IH. f_equal. ring.
Qed.

Lemma Sum_finiteSlice (qs : list Qc) : Sum (finiteSlice qs) = Finite (qsum qs).
Proof. unfold Sum. rewrite fold_left_fadd_finite. f_equal. ring. Qed.

Lemma Sum_snoc (s : Float64Slice) (x : float64) :
  Sum (s ++ [x]) = (Sum s + x)%float.
Proof. unfold Sum. by rewrite fold_left_app. Qed.

Lemma length_DivScalar s x : length (DivScalar s x) = length s.
Proof. unfold DivScalar. by rewrite length_fmap. Qed.

Lemma length_MulScalar s x : length (MulScalar s x) = length s.
Proof. unfold MulScalar. by rewrite length_fmap. Qed.

Lemma length_Normalize s : length (Normalize s) = length s.
Proof. apply length_DivScalar. Qed.

Lemma DivScalar_finite (qs : list Qc) (d : Qc) :
  d ≠ 0 ->
  DivScalar (finiteSlice qs) (Finite d) = finiteSlice ((fun q => q / d) <$> qs).
Proof.
  intros Hd. unfold DivScalar, finiteSlice. rewrite <- !list_fmap_compose.
  apply list_fmap_ext. intros _ q _. unfold compose, fdiv.
  by rewrite decide_False.
Qed.

Lemma MulScalar_finite (qs : list Qc) (k : Qc) :
  MulScalar (finiteSlice qs) (Finite k) = finiteSlice ((fun q => q * k) <$> qs).
Proof.
  unfold MulScalar, finiteSlice. rewrite <- !list_fmap_compose.
  by apply list_fmap_ext.
Qed.

Lemma qsum_scale (qs : list Qc) (k : Qc) :
  qsum ((fun q => q * k) <$> qs) = qsum qs * k.
Proof.
  induction qs as [|q qs IH].
  - unfold qsum. simpl. ring.
  - change (q * k + qsum ((fun q => q * k) <$> qs) = (q + qsum qs) * k).
    rewrite IH. ring.
Qed.

Lemma qsum_div (qs : list Qc) (d : Qc) :
  qsum ((fun q => q / d) <$> qs) = qsum qs / d.
Proof. apply (qsum_scale qs (/ d)). Qed.

Lemma Normalize_finite (qs : list Qc) :
  qsum qs ≠ 0 ->
  Normalize (finiteSlice qs) = finiteSlice ((fun q => q / qsum qs) <$> qs).
Proof.
  intros Hs. unfold Normalize. rewrite Sum_finiteSlice.
  by apply DivScalar_finite.
Qed.

(** C7 (amended). [Normalize] returns, without any error case, a slice of
    the same length whose i-th element is [v[i] / Sum v]; on a slice of
    finite numbers whose sum is not zero the result sums to 1 in exact
    arithmetic; when the sum is zero the division still takes place and
    every element of the result is NaN or an infinity. *)
Theorem Normalize_reference (v : Float64Slice) :
  length (Normalize v) = length v
  ∧ (∀ i : nat, Normalize v !! i = (fun x => x / Sum v)%float <$> v !! i)
  ∧ (∀ qs : list Qc,
       v = finiteSlice qs -> Sum v ≠ Finite 0 ->
       Sum (Normalize v) = Finite 1)
  ∧ (Sum v = Finite 0 ->
     ∀ (i : nat) (x : float64), Normalize v !! i = Some x -> ¬ isFinite x).
Proof.
  split; [apply length_Normalize|].
  split; [intros i; unfold Normalize, DivScalar; apply list_lookup_fmap|].
  split.
  - intros qs -> Hsum. rewrite Sum_finiteSlice in Hsum.
    assert (Hq : qsum qs ≠ 0) by congruence.
    rewrite Normalize_finite, Sum_finiteSlice, qsum_div by done.
    f_equal. by field.
  - intros Hzero i x. unfold Normalize, DivScalar. rewrite Hzero.
    rewrite list_lookup_fmap. destruct (v !! i) as [y|]; simpl; [|done].
    intros [= <-]. apply fdiv_zero_not_finite.
Qed.

(** ** The weight calculator *)

Section WeightCalculator.

Variable source : glassnode.DataSource.

Local Abbreviation query := (glassnode.QueryMarketCapInUSD source).

(** When every query succeeds the loop appends the market caps in list
    order. *)
Lemma queryMarketCaps_success (currencies : list string) (weights : Float64Slice) :
  (∀ c, c ∈ currencies -> (query c).2 = None) ->
  queryMarketCaps source currencies weights
  = (weights ++ ((fun c => (query c).1) <$> currencies), None).
Proof.
  revert weights. induction currencies as [|c cs IH]; intros weights Hall.
  - simpl. by rewrite app_nil_r.
  - simpl. pose proof (Hall c (list_elem_of_here c cs)) as Hc.
    destruct (query c) as [marketCap err]. simpl in Hc. subst err.
    rewrite IH by (intros c' Hc'; apply Hall; by apply list_elem_of_further).
    by rewrite <- app_assoc.
Qed.

(** The first failed query ends the loop with [nil] and its error. *)
Lemma queryMarketCaps_failure (before after : list string) (c : string)
  (e : error) (weights : Float64Slice) :
  (∀ c', c' ∈ before -> (query c').2 = None) ->
  (query c).2 = Some e ->
  queryMarketCaps source (before ++ c :: after) weights = ([], Some e).
Proof.
  revert weights. induction before as [|b bs IH]; intros weights Hall Hc.
  - simpl. destruct (query c) as [marketCap err]. simpl in Hc. by subst err.
  - simpl. pose proof (Hall b (list_elem_of_here b bs)) as Hb.
    destruct (query b) as [marketCap err]. simpl in Hb. subst err.
    apply IH; [|done]. intros c' Hc'. apply Hall. by apply list_elem_of_further.
Qed.

(** A list of currencies either answers everywhere or splits at its first
    failed query. *)
Lemma first_failure (currencies : list string) :
  (∀ c, c ∈ currencies -> (query c).2 = None)
  ∨ (∃ before c after e,
       currencies = before ++ c :: after
       ∧ (∀ c', c' ∈ before -> (query c').2 = None)
       ∧ (query c).2 = Some e).
Proof.
  induction currencies as [|c cs IH].
  - left. intros c Hc. by apply elem_of_nil in Hc.
  - destruct ((query c).2) as [e|] eqn:Hc.
    + right. exists [], c, cs, e. split; [done|]. split; [|done].
      intros c' Hc'. by apply elem_of_nil in Hc'.
    + destruct IH as [Hall|(before & c' & after & e & -> & Hall & Hfail)].
      * left. intros c' [->|Hc']%elem_of_cons; auto.
      * right. exists (c :: before), c', after, e. split; [done|].
        split; [|done]. intros c'' [->|Hc'']%elem_of_cons; auto.
Qed.

End WeightCalculator.

Lemma getTargetWeights_success (s : Strategy) :
  (∀ c, c ∈ TargetCurrencies s ->
        (glassnode.QueryMarketCapInUSD (glassnode s) c).2 = None) ->
  getTargetWeights s
  = (MulScalar
       (Normalize ((fun c => (glassnode.QueryMarketCapInUSD (glassnode s) c).1)
                     <$> TargetCurrencies s))
       (Finite 1 - Float64 (BaseWeight s))%float
     ++ [Float64 (BaseWeight s)], None).
Proof.
  intros Hall. unfold getTargetWeights.
  by rewrite queryMarketCaps_success.
Qed.

Lemma getTargetWeights_failure (s : Strategy) before c after e :
  TargetCurrencies s = before ++ c :: after ->
  (∀ c', c' ∈ before ->
         (glassnode.QueryMarketCapInUSD (glassnode s) c').2 = None) ->
  (glassnode.QueryMarketCapInUSD (glassnode s) c).2 = Some e ->
  getTargetWeights s = ([], Some e).
Proof.
  intros Hsplit Hall Hc. unfold getTargetWeights. rewrite Hsplit.
  by rewrite (queryMarketCaps_failure _ before after c e).
Qed.

(** C5. When every market-cap query succeeds, [getTargetWeights] returns a
    slice with one element more than there are target currencies, and the
    last element is the configured base weight itself. *)
Theorem getTargetWeights_shape (s : Strategy) :
  (∀ c, c ∈ TargetCurrencies s ->
        (glassnode.QueryMarketCapInUSD (glassnode s) c).2 = None) ->
  ∃ weights : Float64Slice,
    getTargetWeights s = (weights, None)
    ∧ length weights = (length (TargetCurrencies s) + 1)%nat
    ∧ last weights = Some (Float64 (BaseWeight s)).
Proof.
  intros Hall. eexists. split; [by apply getTargetWeights_success|].
  split.
  - by rewrite length_app, length_MulScalar, length_Normalize, length_fmap.
  - apply last_snoc.
Qed.

(** Queries answering the numbers [qs] all succeed, and their values are the
    slice of these numbers. *)
Lemma finite_answers (source : glassnode.DataSource) (currencies : list string)
  (qs : list Qc) :
  Forall2 (fun c q => glassnode.QueryMarketCapInUSD source c = (Finite q, None))
          currencies qs ->
  (∀ c, c ∈ currencies -> (glassnode.QueryMarketCapInUSD source c).2 = None)
  ∧ (fun c => (glassnode.QueryMarketCapInUSD source c).1) <$> currencies
    = finiteSlice qs.
Proof.
  induction 1 as [|c q cs qs' Hcq _ [IHall IHvals]].
  - split; [|done]. intros c Hc. by apply elem_of_nil in Hc.
  - split.
    + intros c' [->|Hc']%elem_of_cons; [by rewrite Hcq|auto].
    + unfold finiteSlice in *. by rewrite !fmap_cons, IHvals, Hcq.
Qed.

(** C6. When the queried market caps are numbers whose sum is not zero, the
    slice returned by [getTargetWeights] sums to 1: the normalized fractions
    scaled by [1 - baseWeight], plus the appended [baseWeight]. *)
Theorem getTargetWeights_sum_one (s : Strategy) (marketCaps : list Qc) :
  Forall2 (fun c q =>
             glassnode.QueryMarketCapInUSD (glassnode s) c = (Finite q, None))
          (TargetCurrencies s) marketCaps ->
  Sum (finiteSlice marketCaps) ≠ Finite 0 ->
  ∃ weights : Float64Slice,
    getTargetWeights s = (weights, None) ∧ Sum weights = Finite 1.
Proof.
  intros Hcaps Hsum. rewrite Sum_finiteSlice in Hsum.
  assert (Hq : qsum marketCaps ≠ 0) by congruence.
  destruct (finite_answers _ _ _ Hcaps) as [Hall Hvals].
  eexists. split; [by apply getTargetWeights_success|].
  rewrite Hvals, Normalize_finite by done.
  change (Finite 1 - Float64 (BaseWeight s))%float
    with (Finite (1 + - BaseWeight s)).
  rewrite MulScalar_finite, Sum_snoc, Sum_finiteSlice, qsum_scale, qsum_div.
  unfold Float64. simpl. f_equal. by field.
Qed.

(** C8. If a market-cap query fails for some target currency,
    [getTargetWeights] returns [nil] together with an error, the one of the
    first failing query in list order; it returns without error exactly when
    every query succeeds, and it then returns the weight vector: the scaled
    normalized market caps of all the targets followed by the base weight,
    one entry more than there are targets. *)
Theorem getTargetWeights_fail_fast (s : Strategy) :
  (∀ c, c ∈ TargetCurrencies s ->
        (glassnode.QueryMarketCapInUSD (glassnode s) c).2 ≠ None ->
        ∃ e, getTargetWeights s = ([], Some e))
  ∧ (∀ before c after e,
       TargetCurrencies s = before ++ c :: after ->
       (∀ c', c' ∈ before ->
              (glassnode.QueryMarketCapInUSD (glassnode s) c').2 = None) ->
       (glassnode.QueryMarketCapInUSD (glassnode s) c).2 = Some e ->
       getTargetWeights s = ([], Some e))
  ∧ ((getTargetWeights s).2 = None
     ↔ ∀ c, c ∈ TargetCurrencies s ->
            (glassnode.QueryMarketCapInUSD (glassnode s) c).2 = None)
  ∧ ((∃ weights : Float64Slice,
        getTargetWeights s = (weights, None)
        ∧ length weights = (length (TargetCurrencies s) + 1)%nat
        ∧ weights
          = MulScalar
              (Normalize
                 ((fun c => (glassnode.QueryMarketCapInUSD (glassnode s) c).1)
                    <$> TargetCurrencies s))
              (Finite 1 - Float64 (BaseWeight s))%float
            ++ [Float64 (BaseWeight s)])
     ↔ ∀ c, c ∈ TargetCurrencies s ->
            (glassnode.QueryMarketCapInUSD (glassnode s) c).2 = None).
Proof.
  assert (Hiff : (getTargetWeights s).2 = None
     ↔ ∀ c, c ∈ TargetCurrencies s ->
            (glassnode.QueryMarketCapInUSD (glassnode s) c).2 = None).
  { split.
    - intros Hnone.
      destruct (first_failure (glassnode s) (TargetCurrencies s))
        as [Hall|(before & c' & after & e & Hsplit & Hall & He)]; [done|].
      by rewrite (getTargetWeights_failure s before c' after e) in Hnone.
    - intros Hall. by rewrite getTargetWeights_success. }
  split; [|split; [|split; [exact Hiff|]]]; cycle 2.
  { split.
    - intros (weights & Hweights & _). apply Hiff. by rewrite Hweights.
    - intros Hall. eexists. split; [by apply getTargetWeights_success|].
      split; [|done].
      by rewrite length_app, length_MulScalar, length_Normalize,
        length_fmap. }
  - intros c Hc Hfail.
    destruct (first_failure (glassnode s) (TargetCurrencies s))
      as [Hall|(before & c' & after & e & Hsplit & Hall & He)].
    + by specialize (Hall c Hc).
    + exists e. by apply (getTargetWeights_failure s before c' after).
  - apply getTargetWeights_failure.
Qed.

(** ** Validation *)

Lemma validateTargets_None (baseCurrency : string) (currencies : list string) :
  validateTargets baseCurrency currencies = None ↔ baseCurrency ∉ currencies.
Proof.
  induction currencies as [|c cs IH]; simpl.
  - split; [intros _; apply not_elem_of_nil|done].
  - rewrite not_elem_of_cons. destruct (decide (c = baseCurrency)) as [->|Hne].
    + split; [done|]. by intros [? _].
    + rewrite IH. split; [by intros ?; split|by intros [_ ?]].
Qed.

Lemma Sign_negative (v : Value) : (Sign v < 0)%Z ↔ v < 0.
Proof.
  unfold Sign. destruct (decide (0 < v)) as [Hpos|Hnpos].
  - split; [lia|]. intros Hneg. destruct (Qclt_not_le _ _ Hpos).
    by apply Qclt_le_weak.
  - destruct (decide (v = 0)) as [->|Hnz].
    + split; [lia|]. intros Hneg. by apply Qclt_not_eq in Hneg.
    + split; [intros _|lia].
      apply Qcnot_lt_le in Hnpos.
      destruct (Qcle_lt_or_eq _ _ Hnpos); [done|by subst].
Qed.

Lemma Sign_positive (v : Value) : (Sign v > 0)%Z ↔ 0 < v.
Proof.
  unfold Sign. destruct (decide (0 < v)) as [Hpos|Hnpos]; [split; [done|lia]|].
  destruct (decide (v = 0)); split; lia || done.
Qed.

(** C9. [Validate] returns an error exactly when the target list is empty,
    or a target currency is the base currency, or the threshold is negative,
    or the maximal amount is negative; otherwise it returns [nil]. *)
Theorem Validate_complete (s : Strategy) :
  ((∃ err, Validate s = Some err)
   ↔ (TargetCurrencies s = []
      ∨ (∃ c, c ∈ TargetCurrencies s ∧ c = BaseCurrency s)
      ∨ Threshold s < 0
      ∨ MaxAmount s < 0))
  ∧ (TargetCurrencies s ≠ [] ->
     (∀ c, c ∈ TargetCurrencies s -> c ≠ BaseCurrency s) ->
     0 <= Threshold s -> 0 <= MaxAmount s ->
     Validate s = None).
Proof.
  assert (Hcases :
    Validate s = None
    ↔ TargetCurrencies s ≠ [] ∧ (BaseCurrency s ∉ TargetCurrencies s)
      ∧ ¬ Threshold s < 0 ∧ ¬ MaxAmount s < 0).
  { unfold Validate.
    destruct (decide (length (TargetCurrencies s) = 0%nat)) as [Hlen|Hlen].
    { apply length_zero_iff_nil in Hlen. split; [done|]. by intros [? _]. }
    assert (TargetCurrencies s ≠ []) by (by rewrite <- length_zero_iff_nil).
    destruct (validateTargets _ _) as [err|] eqn:Htargets.
    { split; [done|]. intros (_ & Hbase & _).
      apply validateTargets_None in Hbase. congruence. }
    apply validateTargets_None in Htargets.
    destruct (decide (Threshold s < 0)); [split; [done|tauto]|].
    destruct (decide (Sign (MaxAmount s) < 0)%Z) as [Hsign|Hsign];
      rewrite Sign_negative in Hsign; [split; [done|tauto]|].
    tauto. }
  split.
  - split.
    + intros [err Herr].
      destruct (decide (TargetCurrencies s = [])); [by left|].
      destruct (decide (BaseCurrency s ∈ TargetCurrencies s));
        [right; left; eauto|].
      destruct (decide (Threshold s < 0)); [by right; right; left|].
      destruct (decide (MaxAmount s < 0)); [by right; right; right|].
      assert (Validate s = None) by (apply Hcases; tauto). congruence.
    + intros Hviolated. destruct (Validate s) as [err|] eqn:Hv; [eauto|].
      destruct (proj1 Hcases eq_refl) as (Hne & Hbase & Hth & Hmax).
      destruct Hviolated as [?|[(c & Hc & ->)|[?|?]]]; done.
  - intros Hne Hbase Hth Hmax. apply Hcases.
    split; [done|]. split; [intros Hin; by apply (Hbase _ Hin)|].
    split; by apply Qcle_not_lt.
Qed.

(** ** The portfolio snapshot and [logAssets] *)

Lemma length_queryPrices session baseCurrency currencies prices :
  ∀ result,
    queryPrices session baseCurrency currencies prices = (result, None) ->
    length result = (length prices + length currencies)%nat.
Proof.
  revert prices. induction currencies as [|c cs IH]; intros prices result.
  - simpl. intros [= <-]. lia.
  - simpl. destruct (bbgo.QueryTicker _ _) as [ticker [e|]]; [done|].
    intros Hrest. apply IH in Hrest. rewrite length_app in Hrest.
    simpl in *. lia.
Qed.

Lemma length_getPrices (s : Strategy) session prices :
  getPrices s session = (prices, None) ->
  length prices = (length (TargetCurrencies s) + 1)%nat.
Proof.
  unfold getPrices.
  destruct (queryPrices _ _ _ _) as [ps [e|]] eqn:Hq; [done|].
  intros [= <-]. apply length_queryPrices in Hq.
  rewrite length_app. simpl in *. lia.
Qed.

Lemma length_getQuantities (s : Strategy) balances :
  length (getQuantities s balances) = (length (TargetCurrencies s) + 1)%nat.
Proof.
  unfold getQuantities. rewrite length_app. simpl. f_equal.
  assert (Hgen : ∀ cs (acc : Float64Slice),
    length (fold_left (fun quantities currency =>
                         quantities ++ [quantityOf s balances currency]) cs acc)
    = (length acc + length cs)%nat).
  { induction cs as [|c cs IH]; intros acc; simpl; [lia|].
    rewrite IH, length_app. simpl. lia. }
  by rewrite Hgen.
Qed.

Lemma index_in_range {A} (l : list A) (i : Z) :
  (0 <= i < Z.of_nat (length l))%Z -> returns (index l i).
Proof.
  intros Hi. unfold index. rewrite decide_False by lia.
  destruct (lookup_lt_is_Some_2 l (Z.to_nat i)) as [x ->]; [lia|done].
Qed.

Lemma logTargets_returns (weights quantities : Float64Slice) assets :
  ∀ i lines,
    (i + length assets <= length weights)%nat ->
    (i + length assets <= length quantities)%nat ->
    returns (logTargets weights quantities i assets lines).
Proof.
  induction assets as [|asset rest IH]; intros i lines Hw Hq; [done|].
  simpl in *.
  pose proof (index_in_range weights (Z.of_nat i)) as Hwi.
  pose proof (index_in_range quantities (Z.of_nat i)) as Hqi.
  destruct (index weights _); [|apply Hwi; lia].
  destruct (index quantities _); [|apply Hqi; lia].
  simpl. apply IH; lia.
Qed.

Lemma index_panic {A} (l : list A) (i : Z) (p : panic) :
  index l i = Panicked p -> p = IndexOutOfRange i (length l).
Proof. unfold index. repeat case_match; congruence. Qed.

(** The loop over the targets can only stop on an index out of range. *)
Lemma logTargets_panic (weights quantities : Float64Slice) assets :
  ∀ i lines p,
    logTargets weights quantities i assets lines = Panicked p ->
    ∃ j n, p = IndexOutOfRange j n.
Proof.
  induction assets as [|asset rest IH]; intros i lines p; [done|].
  simpl.
  destruct (index weights _) as [w|pw] eqn:Hw; simpl;
    [|intros [= <-]; apply index_panic in Hw; eauto].
  destruct (index quantities _) as [q|pq] eqn:Hq; simpl;
    [|intros [= <-]; apply index_panic in Hq; eauto].
  apply IH.
Qed.

(** C10. When the market values have one entry more than there are target
    currencies, the assertion of [logAssets] holds and its panic is not
    reached; with the quantities of [getQuantities] the function returns, and
    this is the situation of every cycle whose prices were all obtained. *)
Theorem logAssets_no_panic (s : Strategy)
  (marketValues prices quantities : Float64Slice) :
  length marketValues = (length (TargetCurrencies s) + 1)%nat ->
  (Z.of_nat (length (Normalize marketValues)) - 1
   = Z.of_nat (length (TargetCurrencies s)))%Z
  ∧ logAssets s marketValues prices quantities
    ≠ Panicked (PanicMessage "len(weights)-1 != len(s.TargetCurrencies)")
  ∧ (length quantities = (length (TargetCurrencies s) + 1)%nat ->
     returns (logAssets s marketValues prices quantities))
  ∧ (∀ session balances,
       getPrices s session = (prices, None) ->
       ∃ values,
         Mul prices (getQuantities s balances) = Ok values
         ∧ length values = (length (TargetCurrencies s) + 1)%nat
         ∧ returns (logAssets s values prices (getQuantities s balances))).
Proof.
  assert (Hreturns : ∀ values qs : Float64Slice,
    length values = (length (TargetCurrencies s) + 1)%nat ->
    length qs = (length (TargetCurrencies s) + 1)%nat ->
    returns (logAssets s values prices qs)).
  { intros values qs Hv Hq. unfold logAssets.
    rewrite decide_False by (rewrite length_Normalize; lia).
    pose proof (logTargets_returns (Normalize values) qs
                  (TargetCurrencies s) 0 []) as Hlines.
    destruct (logTargets _ _ _ _ _);
      [|apply Hlines; rewrite ?length_Normalize; lia].
    simpl.
    pose proof (index_in_range (Normalize values)
                  (Z.of_nat (length (Normalize values)) - 1)) as Hw.
    destruct (index (Normalize values) _);
      [|apply Hw; rewrite length_Normalize; lia].
    simpl.
    pose proof (index_in_range qs (Z.of_nat (length qs) - 1)) as Hqs.
    destruct (index qs _); [done|apply Hqs; lia]. }
  intros Hlen. split; [rewrite length_Normalize; lia|].
  split.
  { unfold logAssets.
    rewrite decide_False by (rewrite length_Normalize; lia).
    destruct (logTargets _ _ _ _ _) as [lines|p] eqn:Hlines; simpl.
    - destruct (index (Normalize marketValues) _) as [w|p] eqn:Hw; simpl.
      + destruct (index quantities _) as [q|p] eqn:Hq; simpl; [done|].
        apply index_panic in Hq as ->. done.
      + apply index_panic in Hw as ->. done.
    - apply logTargets_panic in Hlines as (j & n & ->). done. }
  split; [by apply Hreturns|].
  intros session balances Hprices. apply length_getPrices in Hprices.
  pose proof (length_getQuantities s balances) as Hq.
  exists (zip_with fmul prices (getQuantities s balances)).
  assert (Hzip : length (zip_with fmul prices (getQuantities s balances))
                 = (length (TargetCurrencies s) + 1)%nat).
  { rewrite length_zip_with. lia. }
  split; [unfold Mul; rewrite decide_True; [done|lia]|].
  split; [done|]. by apply Hreturns.
Qed.

(** ** The rebalance decision engine *)

Lemma Abs_of_nonneg (v : Value) : ¬ v < 0 -> Abs v = v.
Proof. intros Hv. unfold Abs. by rewrite decide_False. Qed.

Section DecisionEngine.

Variable castNonFinite : float64 -> Value.
Variable s : Strategy.
Variables prices currentWeights targetWeights : Float64Slice.
Variable totalValue : float64.

Local Abbreviation NewFromFloat := (fixedpoint.NewFromFloat castNonFinite).
Local Abbreviation orderAt :=
  (submitOrderAt castNonFinite s prices currentWeights targetWeights
     totalValue).
Local Abbreviation ordersFrom :=
  (submitOrdersFrom castNonFinite s prices currentWeights targetWeights
     totalValue).

Lemma index_lookup {A} (l : list A) (i : nat) (x : A) :
  l !! i = Some x -> index l (Z.of_nat i) = Ok x.
Proof.
  intros Hx. unfold index. rewrite decide_False by lia.
  by rewrite Nat2Z.id, Hx.
Qed.

Lemma index_Ok {A} (l : list A) (i : nat) (x : A) :
  index l (Z.of_nat i) = Ok x -> l !! i = Some x.
Proof.
  unfold index. rewrite decide_False by lia. rewrite Nat2Z.id.
  destruct (l !! i); [by intros [= ->]|done].
Qed.

(** What an iteration computes once its three reads have succeeded. *)
Lemma submitOrderAt_unfold (i : nat) (currency : string)
  (currentWeight currentPrice targetWeight : float64) :
  currentWeights !! i = Some currentWeight ->
  prices !! i = Some currentPrice ->
  targetWeights !! i = Some targetWeight ->
  orderAt i currency
  = if (fabs (targetWeight - currentWeight) <? Float64 (Threshold s))%float
    then Ok None
    else
      let raw :=
        rawQuantity castNonFinite totalValue currentWeight currentPrice
          targetWeight in
      let quantity := if decide (Sign raw < 0)%Z then Abs raw else raw in
      Ok (Some {| Symbol := currency +:+ BaseCurrency s;
                  Side := if decide (Sign raw < 0)%Z
                          then SideTypeSell else SideTypeBuy;
                  Type_ := OrderTypeLimit;
                  Quantity :=
                    if decide (Sign (MaxAmount s) > 0)%Z
                    then bbgo.AdjustQuantityByMaxAmount quantity
                           (NewFromFloat currentPrice) (MaxAmount s)
                    else quantity;
                  Price := NewFromFloat currentPrice |}).
Proof.
  intros Hw Hp Ht. unfold submitOrderAt.
  rewrite (index_lookup _ _ _ Hw), (index_lookup _ _ _ Hp),
    (index_lookup _ _ _ Ht). simpl.
  destruct (fabs _ <? _)%float; [done|].
  unfold rawQuantity. by destruct (decide (Sign _ < 0)%Z).
Qed.

(** An iteration that yields an order has read its three inputs. *)
Lemma submitOrderAt_reads (i : nat) (currency : string) (o : option SubmitOrder) :
  orderAt i currency = Ok o ->
  ∃ currentWeight currentPrice targetWeight,
    currentWeights !! i = Some currentWeight
    ∧ prices !! i = Some currentPrice
    ∧ targetWeights !! i = Some targetWeight.
Proof.
  unfold submitOrderAt.
  destruct (index currentWeights _) as [w|] eqn:Hw; [|done].
  destruct (index prices _) as [p|] eqn:Hp; [|done].
  destruct (index targetWeights _) as [t|] eqn:Ht; [|done].
  intros _. exists w, p, t. auto using index_Ok.
Qed.

(** The loop returns the orders of its iterations, in list order, after
    those it started with. *)
Lemma submitOrdersFrom_Ok (currencies : list string) :
  ∀ (i : nat) (submitOrders orders : list SubmitOrder),
    ordersFrom i currencies submitOrders = Ok orders ->
    ∃ outcomes : list (option SubmitOrder),
      (∀ k currency,
         currencies !! k = Some currency ->
         ∃ o, outcomes !! k = Some o
              ∧ orderAt (i + k)%nat currency = Ok o)
      ∧ (∀ k o, outcomes !! k = Some o -> is_Some (currencies !! k))
      ∧ orders = submitOrders ++ omap id outcomes.
Proof.
  induction currencies as [|c cs IH]; intros i submitOrders orders.
  - simpl. intros [= <-]. exists []. split; [done|]. split; [done|].
    by rewrite app_nil_r.
  - simpl. destruct (orderAt i c) as [o|p] eqn:Ho; [|done]. simpl.
    intros Hrest.
    assert (∃ outcomes,
      (∀ k currency, cs !! k = Some currency ->
         ∃ o', outcomes !! k = Some o'
               ∧ orderAt (S i + k)%nat currency = Ok o')
      ∧ (∀ k o', outcomes !! k = Some o' -> is_Some (cs !! k))
      ∧ orders = (submitOrders ++ omap id [o]) ++ omap id outcomes)
      as (outcomes & Hat & Hdom & ->).
    { destruct o as [order|]; apply IH in Hrest; [done|].
      simpl. by rewrite app_nil_r. }
    exists (o :: outcomes). split; [|split].
    + intros [|k] currency Hk.
      * simpl in Hk. injection Hk as <-. exists o. split; [done|].
        by rewrite Nat.add_0_r.
      * destruct (Hat k currency Hk) as (o' & Hk' & Ho').
        exists o'. split; [done|]. by rewrite Nat.add_succ_r.
    + intros [|k] o' Hk; simpl; [eauto|]. by apply (Hdom k o').
    + rewrite <- app_assoc. f_equal. by destruct o.
Qed.

(** When every iteration is skipped, the loop returns what it started
    with. *)
Lemma submitOrdersFrom_skipped (currencies : list string) :
  ∀ (i : nat) (submitOrders : list SubmitOrder),
    (∀ k currency,
       currencies !! k = Some currency ->
       orderAt (i + k)%nat currency = Ok None) ->
    ordersFrom i currencies submitOrders = Ok submitOrders.
Proof.
  induction currencies as [|c cs IH]; intros i submitOrders Hskip; [done|].
  simpl. rewrite <- (Nat.add_0_r i) at 1. rewrite (Hskip 0%nat c eq_refl).
  simpl. apply IH. intros k currency Hk.
  replace (S i + k)%nat with (i + S k)%nat by lia. by apply Hskip.
Qed.

(** Every order that is returned was produced by the iteration of some
    target currency. *)
Lemma submitOrdersFrom_origin (orders : list SubmitOrder) (o : SubmitOrder) :
  ordersFrom 0 (TargetCurrencies s) [] = Ok orders ->
  o ∈ orders ->
  ∃ i currency,
    TargetCurrencies s !! i = Some currency
    ∧ orderAt i currency = Ok (Some o).
Proof.
  intros Hrun Ho.
  apply submitOrdersFrom_Ok in Hrun as (outcomes & Hat & Hdom & ->).
  simpl in Ho. apply list_elem_of_omap in Ho as (oo & Hin & Hoo).
  simpl in Hoo. subst oo.
  apply list_elem_of_lookup in Hin as [i Hi].
  destruct (Hdom i _ Hi) as [currency Hc].
  destruct (Hat i currency Hc) as (o' & Hi' & Ho').
  exists i, currency. split; [done|]. simpl in Ho'. congruence.
Qed.

(** An order produced by an iteration is among the orders returned. *)
Lemma submitOrdersFrom_emitted (orders : list SubmitOrder) (o : SubmitOrder)
  (i : nat) (currency : string) :
  ordersFrom 0 (TargetCurrencies s) [] = Ok orders ->
  TargetCurrencies s !! i = Some currency ->
  orderAt i currency = Ok (Some o) ->
  o ∈ orders.
Proof.
  intros Hrun Hc Ho.
  apply submitOrdersFrom_Ok in Hrun as (outcomes & Hat & _ & ->).
  destruct (Hat i currency Hc) as (o' & Hi & Ho'). simpl in Ho'.
  simpl. apply list_elem_of_omap. exists (Some o). split; [|done].
  apply list_elem_of_lookup. exists i. congruence.
Qed.

End DecisionEngine.

Lemma string_app_length (s1 s2 : string) :
  String.length (s1 +:+ s2) = (String.length s1 + String.length s2)%nat.
Proof. induction s1 as [|a s1 IH]; simpl; [done|by rewrite IH]. Qed.

(** Two symbols against the same base currency name the same asset. *)
Lemma symbol_inj (baseCurrency c1 c2 : string) :
  c1 +:+ baseCurrency = c2 +:+ baseCurrency -> c1 = c2.
Proof.
  revert c2. induction c1 as [|a c1 IH]; intros [|a' c2] Heq; simpl in Heq.
  - done.
  - apply (f_equal String.length) in Heq.
    rewrite !string_app_length in Heq. simpl in Heq.
    rewrite ?string_app_length in Heq. lia.
  - apply (f_equal String.length) in Heq.
    rewrite !string_app_length in Heq. simpl in Heq.
    rewrite ?string_app_length in Heq. lia.
  - injection Heq as -> Heq. f_equal. by apply IH.
Qed.

(** The order of an iteration that passed the dead-band. *)
Lemma submitOrderAt_order castNonFinite (s : Strategy)
  (prices currentWeights targetWeights : Float64Slice) (totalValue : float64)
  (i : nat) (currency : string) (o : SubmitOrder)
  (currentWeight currentPrice targetWeight : float64) :
  currentWeights !! i = Some currentWeight ->
  prices !! i = Some currentPrice ->
  targetWeights !! i = Some targetWeight ->
  submitOrderAt castNonFinite s prices currentWeights targetWeights
    totalValue i currency = Ok (Some o) ->
  let raw :=
    rawQuantity castNonFinite totalValue currentWeight currentPrice
      targetWeight in
  (fabs (targetWeight - currentWeight) <? Float64 (Threshold s))%float = false
  ∧ Symbol o = currency +:+ BaseCurrency s
  ∧ Side o = (if decide (raw < 0) then SideTypeSell else SideTypeBuy)
  ∧ Type_ o = OrderTypeLimit
  ∧ Price o = fixedpoint.NewFromFloat castNonFinite currentPrice
  ∧ Quantity o
    = if decide (0 < MaxAmount s)
      then bbgo.AdjustQuantityByMaxAmount (Abs raw) (Price o) (MaxAmount s)
      else Abs raw.
Proof.
  intros Hw Hp Ht. rewrite (submitOrderAt_unfold _ _ _ _ _ _ _ _ _ _ _ Hw Hp Ht).
  destruct (fabs _ <? _)%float; [done|]. intros [= <-]. simpl.
  set (raw := rawQuantity _ _ _ _ _).
  assert (Hquantity : (if decide (Sign raw < 0)%Z then Abs raw else raw)
                      = Abs raw).
  { destruct (decide (Sign raw < 0)%Z) as [Hs|Hs]; [done|].
    rewrite Sign_negative in Hs. by rewrite Abs_of_nonneg. }
  rewrite Hquantity. repeat split.
  - destruct (decide (Sign raw < 0)%Z) as [Hs|Hs]; rewrite Sign_negative in Hs.
    + by rewrite decide_True.
    + by rewrite decide_False.
  - destruct (decide (Sign (MaxAmount s) > 0)%Z) as [Hs|Hs];
      rewrite Sign_positive in Hs.
    + by rewrite decide_True.
    + by rewrite decide_False.
Qed.

(** The dead-band test on equal numbers, for a positive threshold. *)
Lemma no_drift_in_dead_band (w threshold : Qc) :
  0 < threshold ->
  (fabs (Finite w - Finite w) <? Float64 threshold)%float = true.
Proof.
  intros Hth. unfold fsub, fopp, fadd, fabs, Float64, fltb.
  rewrite Qcplus_opp_r.
  rewrite decide_False by (intros H0; by apply Qclt_not_eq in H0).
  by apply bool_decide_eq_true.
Qed.

(** C1. With a positive threshold, when at every target index the current
    weight and the target weight are the same number, and a price is there
    for every target, [generateSubmitOrders] returns no order. *)
Theorem no_drift_no_orders castNonFinite (s : Strategy)
  (prices marketValues targetWeights : Float64Slice) :
  0 < Threshold s ->
  (length (TargetCurrencies s) <= length prices)%nat ->
  (∀ i : nat,
     (i < length (TargetCurrencies s))%nat ->
     ∃ w : Qc,
       Normalize marketValues !! i = Some (Finite w)
       ∧ targetWeights !! i = Some (Finite w)) ->
  generateSubmitOrders castNonFinite s prices marketValues targetWeights
  = Ok [].
Proof.
  intros Hth Hprices Hequal. unfold generateSubmitOrders.
  apply submitOrdersFrom_skipped. intros k currency Hk. simpl.
  pose proof (lookup_lt_Some _ _ _ Hk) as Hlt.
  destruct (Hequal k Hlt) as (w & Hw & Ht).
  destruct (lookup_lt_is_Some_2 prices k) as [p Hp]; [lia|].
  rewrite (submitOrderAt_unfold _ _ _ _ _ _ _ _ _ _ _ Hw Hp Ht).
  by rewrite no_drift_in_dead_band.
Qed.

(** C3. When the distance between the target weight and the current weight
    of the asset at index [i] is below the threshold, the iteration of that
    asset produces no order; when the target currencies are pairwise
    distinct, no returned order carries the symbol of that asset. *)
Theorem dead_band castNonFinite (s : Strategy)
  (prices marketValues targetWeights : Float64Slice)
  (i : nat) (currency : string) (currentWeight targetWeight : float64) :
  TargetCurrencies s !! i = Some currency ->
  Normalize marketValues !! i = Some currentWeight ->
  targetWeights !! i = Some targetWeight ->
  (fabs (targetWeight - currentWeight) <? Float64 (Threshold s))%float = true ->
  (∀ o : SubmitOrder,
     submitOrderAt castNonFinite s prices (Normalize marketValues)
       targetWeights (Sum marketValues) i currency ≠ Ok (Some o))
  ∧ (∀ orders : list SubmitOrder,
       generateSubmitOrders castNonFinite s prices marketValues targetWeights
       = Ok orders ->
       NoDup (TargetCurrencies s) ->
       ∀ o : SubmitOrder,
         o ∈ orders -> Symbol o ≠ currency +:+ BaseCurrency s).
Proof.
  intros Hc Hw Ht Hband.
  assert (Hskip : ∀ o : SubmitOrder,
    submitOrderAt castNonFinite s prices (Normalize marketValues)
      targetWeights (Sum marketValues) i currency ≠ Ok (Some o)).
  { intros o Ho.
    destruct (submitOrderAt_reads _ _ _ _ _ _ _ _ _ Ho)
      as (w & p & t & Hw' & Hp & Ht').
    destruct (submitOrderAt_order _ _ _ _ _ _ _ _ _ _ _ _ Hw' Hp Ht' Ho)
      as (Hpass & _).
    congruence. }
  split; [done|].
  intros orders Hrun Hdistinct o Ho Hsymbol.
  destruct (submitOrdersFrom_origin _ _ _ _ _ _ _ _ Hrun Ho)
    as (j & c & Hj & Hat).
  destruct (submitOrderAt_reads _ _ _ _ _ _ _ _ _ Hat)
    as (w & p & t & Hw' & Hp & Ht').
  destruct (submitOrderAt_order _ _ _ _ _ _ _ _ _ _ _ _ Hw' Hp Ht' Hat)
    as (_ & Hsym & _).
  rewrite Hsym in Hsymbol. apply symbol_inj in Hsymbol. subst c.
  pose proof (NoDup_lookup _ _ _ _ Hdistinct Hj Hc). subst j.
  by apply (Hskip o).
Qed.

(** C2 (amended). A quantity of zero is not skipped: an asset that passes
    the dead-band with a computed quantity of zero gets a buy order of
    quantity zero at its current price. *)
Theorem zero_quantity_order_emitted castNonFinite (s : Strategy)
  (prices marketValues targetWeights : Float64Slice)
  (orders : list SubmitOrder) :
  generateSubmitOrders castNonFinite s prices marketValues targetWeights
  = Ok orders ->
  ∀ (i : nat) (currency : string)
    (currentWeight currentPrice targetWeight : float64),
    TargetCurrencies s !! i = Some currency ->
    Normalize marketValues !! i = Some currentWeight ->
    prices !! i = Some currentPrice ->
    targetWeights !! i = Some targetWeight ->
    (fabs (targetWeight - currentWeight) <? Float64 (Threshold s))%float
    = false ->
    rawQuantity castNonFinite (Sum marketValues) currentWeight currentPrice
      targetWeight = 0 ->
    {| Symbol := currency +:+ BaseCurrency s;
       Side := SideTypeBuy;
       Type_ := OrderTypeLimit;
       Quantity := 0;
       Price := fixedpoint.NewFromFloat castNonFinite currentPrice |}
    ∈ orders.
Proof.
  intros Hrun i currency w p t Hc Hw Hp Ht Hpass Hzero.
  apply (submitOrdersFrom_emitted _ _ _ _ _ _ _ _ i currency Hrun Hc).
  rewrite (submitOrderAt_unfold _ _ _ _ _ _ _ _ _ _ _ Hw Hp Ht).
  rewrite Hpass. simpl. rewrite Hzero.
  assert (Hsign : ¬ (Sign 0%Qc < 0)%Z)
    by (rewrite Sign_negative; apply Qcle_not_lt, Qcle_refl).
  rewrite !(decide_False _ _ Hsign).
  destruct (decide (Sign (MaxAmount s) > 0)%Z) as [Hmax|Hmax]; [|done].
  rewrite Sign_positive in Hmax.
  unfold bbgo.AdjustQuantityByMaxAmount.
  rewrite decide_False; [done|].
  rewrite Qcmult_0_l. by apply Qcle_not_lt, Qclt_le_weak.
Qed.

(** ** The properties on the scenarios *)

(** Equality of a computed slice element with a literal. *)
Ltac float_lookup :=
  vm_compute; apply (f_equal Some), (f_equal Finite), Qc_canon_eq; reflexivity.

(** Membership in a literal list of target currencies, case by case. *)
Ltac each_target H :=
  repeat (apply elem_of_cons in H as [->|H]; [reflexivity || done|]);
  by apply elem_of_nil in H.

(** Market caps 300 and 700 with a base weight of 0.2 give the target
    weights 0.24, 0.56 and 0.2. *)
Example scenario_target_weights :
  (getTargetWeights scenario).2 = None
  ∧ exactValue <$> (getTargetWeights scenario).1
    = [Some (6 # 25); Some (14 # 25); Some (1 # 5)]%Q.
Proof. split; vm_compute; reflexivity. Qed.

(** Prices 10, 20, 1 and market values 50, 20, 50 against these targets with
    a threshold of 0.05: A is sold and B is bought. *)
Example scenario_orders :
  match generateSubmitOrders amd64Cast scenario [lit 10 1; lit 20 1; lit 1 1]
          [lit 50 1; lit 20 1; lit 50 1] scenarioTargetWeights with
  | Ok orders => orderView <$> orders
  | Panicked _ => []
  end
  = [("AUSD", SideTypeSell, 53 # 25, 10 # 1);
     ("BUSD", SideTypeBuy, 59 # 25, 20 # 1)]%Q.
Proof. vm_compute. reflexivity. Qed.

(** Market caps that are all zero normalize to NaN. *)
Example scenario_zero_market_caps :
  Normalize [Finite 0; Finite 0] = [NaN; NaN].
Proof. vm_compute. reflexivity. Qed.

(** Market values 1 and -1 sum to zero and normalize to the two infinities;
    against a target weight that is the same infinity the difference is NaN,
    which is not below any threshold, and an order is produced.  This is why
    the no-drift property speaks of weights that are numbers. *)
Example infinite_weights_trade :
  Normalize [lit 1 1; lit (-1) 1; lit 0 1] = [PosInf; NegInf; NaN]
  ∧ ∃ o1 o2 : SubmitOrder,
      generateSubmitOrders amd64Cast scenario unitPrices
        [lit 1 1; lit (-1) 1; lit 0 1] [PosInf; NegInf; NaN] = Ok [o1; o2].
Proof.
  split; [vm_compute; reflexivity|].
  do 2 eexists. vm_compute. reflexivity.
Qed.

(** A slice with an infinite entry has a sum that is not zero, and its
    normalization does not sum to 1: infinity divided by infinity is NaN. *)
Lemma Normalize_infinite_entry :
  Sum [PosInf; lit 1 1] = PosInf
  ∧ Sum [PosInf; lit 1 1] ≠ Finite 0
  ∧ Normalize [PosInf; lit 1 1] = [NaN; Finite 0]
  ∧ Sum (Normalize [PosInf; lit 1 1]) = NaN
  ∧ Sum (Normalize [PosInf; lit 1 1]) ≠ Finite 1.
Proof. repeat split; vm_compute; (reflexivity || discriminate). Qed.

(** C4 (the code departs from the claim). On an account that holds nothing
    the total value is zero and the current weights are NaN; NaN is not
    below the threshold, so both targets get an order; the quantity converted
    from NaN is, on amd64, the smallest int64 mantissa, which [Abs] leaves
    negative: two sell orders of negative quantity are returned. *)
Theorem empty_account_negative_quantity :
  ∃ o1 o2 : SubmitOrder,
    generateSubmitOrders amd64Cast scenario [lit 10 1; lit 20 1; lit 1 1]
      emptyAccountValues scenarioTargetWeights = Ok [o1; o2]
    ∧ Side o1 = SideTypeSell ∧ Quantity o1 < 0
    ∧ Side o2 = SideTypeSell ∧ Quantity o2 < 0.
Proof. do 2 eexists. repeat split; vm_compute; reflexivity. Qed.

(** With a threshold of zero the no-drift portfolio still produces orders:
    the weights 0.25 and 0.25 are on target, and two orders, of quantity
    zero, are returned. *)
Lemma zero_threshold_still_trades :
  0 <= Threshold zeroThreshold
  ∧ (∀ i : nat,
       (i < length (TargetCurrencies zeroThreshold))%nat ->
       ∃ w : Qc,
         Normalize balancedValues !! i = Some (Finite w)
         ∧ balancedWeights !! i = Some (Finite w))
  ∧ (∃ o1 o2 : SubmitOrder,
       generateSubmitOrders amd64Cast zeroThreshold unitPrices
         balancedValues balancedWeights = Ok [o1; o2])
  ∧ generateSubmitOrders amd64Cast zeroThreshold unitPrices
      balancedValues balancedWeights ≠ Ok [].
Proof.
  split; [apply Qcle_refl|]. split; [|split].
  - intros [|[|i]] Hi; [| |simpl in Hi; lia];
      exists (Q2Qc (1 # 4)); (split; [float_lookup|reflexivity]).
  - do 2 eexists. vm_compute. reflexivity.
  - vm_compute. discriminate.
Qed.

Lemma no_drift_no_orders_witness :
  generateSubmitOrders amd64Cast scenario unitPrices balancedValues
    balancedWeights = Ok [].
Proof.
  apply (no_drift_no_orders amd64Cast scenario unitPrices balancedValues
           balancedWeights).
  - reflexivity.
  - simpl. lia.
  - intros [|[|i]] Hi; [| |simpl in Hi; lia];
      exists (Q2Qc (1 # 4)); (split; [float_lookup|reflexivity]).
Defined.

(** A zero quantity is sent on: with a threshold of zero and a cap of 100,
    asset A, on target, gets an order whose quantity is zero. *)
Lemma quantity_zero_is_sent :
  ∃ (o : SubmitOrder) (rest : list SubmitOrder),
    generateSubmitOrders amd64Cast zeroThresholdCapped
      onTargetPrices onTargetValues balancedWeights
    = Ok (o :: rest)
    ∧ Symbol o = "AUSD"
    ∧ Quantity o = 0
    ∧ ¬ 0 < Quantity o.
Proof.
  do 2 eexists. split; [vm_compute; reflexivity|]. split; [reflexivity|].
  assert (Hzero : ∀ q : Qc, (this q == 0)%Q -> q = 0 ∧ ¬ 0 < q).
  { intros q Hq. apply (Qc_canon_eq q 0) in Hq. subst q.
    split; [done|]. apply Qcle_not_lt, Qcle_refl. }
  apply Hzero. reflexivity.
Qed.

Lemma zero_quantity_order_emitted_witness :
  ∃ orders : list SubmitOrder,
    generateSubmitOrders amd64Cast zeroThresholdCapped
      onTargetPrices onTargetValues balancedWeights
    = Ok orders
    ∧ {| Symbol := "AUSD"; Side := SideTypeBuy; Type_ := OrderTypeLimit;
         Quantity := 0;
         Price := fixedpoint.NewFromFloat amd64Cast (lit 2 1) |} ∈ orders.
Proof.
  eexists. split; [vm_compute; reflexivity|].
  eapply (zero_quantity_order_emitted amd64Cast zeroThresholdCapped
            onTargetPrices onTargetValues balancedWeights _
            ltac:(vm_compute; reflexivity)
            0%nat "A" _ (lit 2 1) (lit 1 4)).
  - reflexivity.
  - vm_compute. reflexivity.
  - reflexivity.
  - reflexivity.
  - vm_compute. reflexivity.
  - apply Qc_canon_eq. reflexivity.
Defined.

Lemma dead_band_witness :
  (∃ orders : list SubmitOrder,
     generateSubmitOrders amd64Cast scenario [lit 10 1; lit 20 1; lit 1 1]
       [lit 25 1; lit 56 1; lit 19 1] scenarioTargetWeights = Ok orders
     ∧ ∀ o : SubmitOrder, o ∈ orders -> Symbol o ≠ "AUSD")
  ∧ ∀ o : SubmitOrder,
      submitOrderAt amd64Cast scenario [lit 10 1; lit 20 1; lit 1 1]
        (Normalize [lit 25 1; lit 56 1; lit 19 1]) scenarioTargetWeights
        (Sum [lit 25 1; lit 56 1; lit 19 1]) 0 "A" ≠ Ok (Some o).
Proof.
  destruct (dead_band amd64Cast scenario [lit 10 1; lit 20 1; lit 1 1]
              [lit 25 1; lit 56 1; lit 19 1] scenarioTargetWeights
              0 "A" _ _ eq_refl eq_refl eq_refl
              ltac:(vm_compute; reflexivity)) as [Hat Hout].
  split; [|exact Hat].
  eexists. split; [vm_compute; reflexivity|].
  apply Hout; [vm_compute; reflexivity|].
  by apply (bool_decide_unpack _).
Defined.

Lemma getTargetWeights_shape_witness :
  ∃ weights : Float64Slice,
    getTargetWeights scenario = (weights, None)
    ∧ length weights = 3%nat
    ∧ last weights = Some (lit 2 10).
Proof.
  apply (getTargetWeights_shape scenario).
  intros c Hc. simpl in Hc. each_target Hc.
Defined.

Lemma getTargetWeights_sum_one_witness :
  ∃ weights : Float64Slice,
    getTargetWeights scenario = (weights, None) ∧ Sum weights = Finite 1.
Proof.
  apply (getTargetWeights_sum_one scenario [Q2Qc 300; Q2Qc 700]).
  - repeat constructor.
  - vm_compute. discriminate.
Defined.

Lemma Normalize_reference_witness :
  Sum (Normalize balancedValues) = Finite 1.
Proof.
  apply (proj1 (proj2 (proj2 (Normalize_reference balancedValues)))
           [Q2Qc 1; Q2Qc 1; Q2Qc 2]); [reflexivity|].
  vm_compute. discriminate.
Defined.

Lemma getTargetWeights_fail_fast_witness :
  getTargetWeights failingScenario = ([], Some "no market cap for C").
Proof.
  apply (proj1 (proj2 (getTargetWeights_fail_fast failingScenario))
           ["A"] "C" ["B"]); [reflexivity| |reflexivity].
  intros c Hc. each_target Hc.
Defined.

Lemma Validate_complete_witness : Validate scenario = None.
Proof.
  apply (proj2 (Validate_complete scenario)).
  - done.
  - intros c Hc. simpl in Hc.
    repeat (apply elem_of_cons in Hc as [->|Hc]; [done|]).
    by apply elem_of_nil in Hc.
  - by apply Qclt_le_weak.
  - apply Qcle_refl.
Defined.

Lemma logAssets_no_panic_witness :
  returns (logAssets scenario [lit 50 1; lit 20 1; lit 50 1]
             [lit 10 1; lit 20 1; lit 1 1] [lit 5 1; lit 1 1; lit 50 1]).
Proof.
  apply (proj1 (proj2 (proj2
           (logAssets_no_panic scenario [lit 50 1; lit 20 1; lit 50 1]
              [lit 10 1; lit 20 1; lit 1 1] [lit 5 1; lit 1 1; lit 50 1]
              eq_refl)))).
  reflexivity.
Defined.

(** * Further properties of the code *)

(** ** Order facts on exact rationals *)

Lemma Qc_zero_lt_one : (0 : Qc) < 1.
Proof. reflexivity. Qed.

Lemma Qcinv_pos (x : Qc) : 0 < x -> 0 < / x.
Proof.
  intros Hx. apply Qcnot_le_lt. intros Hinv.
  pose proof (Qcmult_le_compat_r _ _ x Hinv (Qclt_le_weak _ _ Hx)) as Hle.
  rewrite Qcmult_0_l, Qcmult_inv_l in Hle
    by (intros ->; by apply Qclt_not_eq in Hx).
  by apply (Qclt_not_le _ _ Qc_zero_lt_one).
Qed.

Lemma Qcmult_nonneg_nonneg (x y : Qc) : 0 <= x -> 0 <= y -> 0 <= x * y.
Proof.
  intros Hx Hy. rewrite <- (Qcmult_0_l y). by apply Qcmult_le_compat_r.
Qed.

Lemma Qcdiv_nonneg (x y : Qc) : 0 <= x -> 0 < y -> 0 <= x / y.
Proof.
  intros Hx Hy. apply Qcmult_nonneg_nonneg; [done|].
  by apply Qclt_le_weak, Qcinv_pos.
Qed.

Lemma Qcdiv_le_one (x y : Qc) : x <= y -> 0 < y -> x / y <= 1.
Proof.
  intros Hxy Hy. rewrite <- (Qcmult_inv_r y)
    by (intros ->; by apply Qclt_not_eq in Hy).
  apply Qcmult_le_compat_r; [done|]. by apply Qclt_le_weak, Qcinv_pos.
Qed.

Lemma Qcopp_pos (x : Qc) : x < 0 -> 0 < - x.
Proof.
  intros Hx. apply Qclt_minus_iff in Hx. by rewrite Qcplus_0_l in Hx.
Qed.

Lemma Qcle_minus (x y : Qc) : 0 <= y -> x + - y <= x.
Proof.
  intros Hy. apply Qcle_minus_iff.
  replace (x + - (x + - y)) with y by ring. done.
Qed.

Lemma qsum_nonneg (qs : list Qc) : Forall (Qcle 0) qs -> 0 <= qsum qs.
Proof.
  induction 1 as [|q qs Hq _ IH]; [apply Qcle_refl|].
  change (0 <= q + qsum qs). by apply Qcplus_nonneg_nonneg.
Qed.

Lemma qsum_bounds_element (qs : list Qc) (q : Qc) :
  Forall (Qcle 0) qs -> q ∈ qs -> q <= qsum qs.
Proof.
  induction 1 as [|q' qs Hq' Hqs IH]; [by intros ?%elem_of_nil|].
  change (q ∈ q' :: qs -> q <= q' + qsum qs).
  intros [->|Hin]%elem_of_cons.
  - rewrite <- (Qcplus_0_r q') at 1. apply Qcplus_le_mono_l.
    by apply qsum_nonneg.
  - rewrite <- (Qcplus_0_l q). apply Qcplus_le_compat; auto.
Qed.

(** ** float_slice.go: further properties of [Normalize] *)

(** X1. Normalizing is insensitive to the unit: a slice of numbers whose sum
    is not zero, scaled by a number that is not zero, normalizes to the same
    weights. *)
Theorem Normalize_scale_invariant (qs : list Qc) (k : Qc) :
  qsum qs ≠ 0 -> k ≠ 0 ->
  Normalize (MulScalar (finiteSlice qs) (Finite k))
  = Normalize (finiteSlice qs).
Proof.
  intros Hs Hk. rewrite MulScalar_finite.
  assert (Hsk : qsum ((fun q => q * k) <$> qs) ≠ 0).
  { rewrite qsum_scale. intros [?|?]%Qcmult_integral; done. }
  rewrite !Normalize_finite by done. unfold finiteSlice. f_equal.
  rewrite <- list_fmap_compose. apply list_fmap_ext. intros _ q _.
  unfold compose. rewrite qsum_scale. by field.
Qed.

(** X2. Normalizing twice is normalizing once, on numbers whose sum is not
    zero. *)
Theorem Normalize_idempotent (qs : list Qc) :
  qsum qs ≠ 0 ->
  Normalize (Normalize (finiteSlice qs)) = Normalize (finiteSlice qs).
Proof.
  intros Hs. rewrite Normalize_finite by done.
  assert (Hone : qsum ((fun q => q / qsum qs) <$> qs) = 1)
    by (rewrite qsum_div; by field).
  rewrite Normalize_finite
    by (rewrite Hone; intros H1; symmetry in H1;
        by apply (Qclt_not_eq _ _ Qc_zero_lt_one)).
  unfold finiteSlice. f_equal. rewrite <- list_fmap_compose.
  apply list_fmap_ext. intros _ q _. unfold compose. rewrite Hone. by field.
Qed.

(** X3. Numbers that are not negative, with a positive sum, normalize to
    weights between 0 and 1. *)
Theorem Normalize_weights_in_unit_interval (qs : list Qc) :
  Forall (Qcle 0) qs -> 0 < qsum qs ->
  ∀ (i : nat) (x : float64),
    Normalize (finiteSlice qs) !! i = Some x ->
    ∃ w : Qc, x = Finite w ∧ 0 <= w ∧ w <= 1.
Proof.
  intros Hqs Hsum i x.
  rewrite Normalize_finite by (intros Hz; rewrite Hz in Hsum;
                               by apply Qclt_not_eq in Hsum).
  unfold finiteSlice. rewrite <- list_fmap_compose, list_lookup_fmap.
  destruct (qs !! i) as [q|] eqn:Hq; [|done]. simpl. intros [= <-].
  assert (Hin : q ∈ qs) by (apply list_elem_of_lookup; eauto).
  exists (q / qsum qs). split; [done|]. split.
  - apply Qcdiv_nonneg; [|done].
    by apply (proj1 (Forall_forall _ _) Hqs).
  - apply Qcdiv_le_one; [|done]. by apply qsum_bounds_element.
Qed.

(** ** Further properties of the weight calculator *)

(** The target weights in closed form, for market caps that are numbers
    with a sum that is not zero. *)
Lemma getTargetWeights_closed_form (s : Strategy) (marketCaps : list Qc) :
  Forall2 (fun c q =>
             glassnode.QueryMarketCapInUSD (glassnode s) c = (Finite q, None))
          (TargetCurrencies s) marketCaps ->
  qsum marketCaps ≠ 0 ->
  getTargetWeights s
  = (finiteSlice ((fun q => q / qsum marketCaps * (1 - BaseWeight s))
                    <$> marketCaps)
     ++ [Float64 (BaseWeight s)], None).
Proof.
  intros Hcaps Hsum. destruct (finite_answers _ _ _ Hcaps) as [Hall Hvals].
  rewrite getTargetWeights_success, Hvals, Normalize_finite by done.
  change (Finite 1 - Float64 (BaseWeight s))%float
    with (Finite (1 - BaseWeight s)).
  rewrite MulScalar_finite. unfold finiteSlice.
  by rewrite <- !list_fmap_compose.
Qed.

(** X4. In exact arithmetic, on market caps that are numbers with a sum
    that is not zero: each target weight is the share of its market cap in
    the total, scaled by [1 - baseWeight]; so the weights of two targets are
    in the ratio of their market caps. *)
Theorem getTargetWeights_proportional (s : Strategy) (marketCaps : list Qc) :
  Forall2 (fun c q =>
             glassnode.QueryMarketCapInUSD (glassnode s) c = (Finite q, None))
          (TargetCurrencies s) marketCaps ->
  qsum marketCaps ≠ 0 ->
  ∃ weights : Float64Slice,
    getTargetWeights s = (weights, None)
    ∧ (∀ (i : nat) (q : Qc),
         marketCaps !! i = Some q ->
         weights !! i
         = Some (Finite (q / qsum marketCaps * (1 - BaseWeight s))))
    ∧ (∀ (i j : nat) (qi qj wi wj : Qc),
         marketCaps !! i = Some qi -> marketCaps !! j = Some qj ->
         weights !! i = Some (Finite wi) -> weights !! j = Some (Finite wj) ->
         wi * qj = wj * qi).
Proof.
  intros Hcaps Hsum. eexists.
  split; [by apply getTargetWeights_closed_form|].
  assert (Hat : ∀ (i : nat) (q : Qc),
    marketCaps !! i = Some q ->
    (finiteSlice ((fun q => q / qsum marketCaps * (1 - BaseWeight s))
                    <$> marketCaps)
     ++ [Float64 (BaseWeight s)]) !! i
    = Some (Finite (q / qsum marketCaps * (1 - BaseWeight s)))).
  { intros i q Hq. rewrite lookup_app_l.
    - unfold finiteSlice. by rewrite !list_lookup_fmap, Hq.
    - unfold finiteSlice. rewrite !length_fmap. by eapply lookup_lt_Some. }
  split; [done|].
  intros i j qi qj wi wj Hi Hj Hwi Hwj.
  rewrite (Hat i qi Hi) in Hwi. rewrite (Hat j qj Hj) in Hwj.
  injection Hwi as <-. injection Hwj as <-. by field.
Qed.

(** X5. With market caps that are not negative and have a positive sum, and
    a base weight between 0 and 1, every target weight is a number between
    0 and 1. *)
Theorem getTargetWeights_in_unit_interval (s : Strategy)
  (marketCaps : list Qc) :
  Forall2 (fun c q =>
             glassnode.QueryMarketCapInUSD (glassnode s) c = (Finite q, None))
          (TargetCurrencies s) marketCaps ->
  Forall (Qcle 0) marketCaps -> 0 < qsum marketCaps ->
  0 <= BaseWeight s -> BaseWeight s <= 1 ->
  ∃ weights : Float64Slice,
    getTargetWeights s = (weights, None)
    ∧ Forall (fun x => ∃ w : Qc, x = Finite w ∧ 0 <= w ∧ w <= 1) weights.
Proof.
  intros Hcaps Hnonneg Hsum Hb0 Hb1.
  assert (Hne : qsum marketCaps ≠ 0)
    by (intros Hz; rewrite Hz in Hsum; by apply Qclt_not_eq in Hsum).
  eexists. split; [by apply getTargetWeights_closed_form|].
  assert (Hrest : 0 <= 1 - BaseWeight s ∧ 1 - BaseWeight s <= 1).
  { split; [by apply Qcle_minus_iff in Hb1|by apply Qcle_minus]. }
  apply Forall_app. split.
  - unfold finiteSlice. rewrite <- list_fmap_compose.
    apply Forall_fmap, Forall_forall. intros q Hq. unfold compose.
    eexists. split; [done|].
    assert (Hq0 : 0 <= q / qsum marketCaps)
      by (apply Qcdiv_nonneg; [by apply (proj1 (Forall_forall _ _) Hnonneg)|done]).
    assert (Hq1 : q / qsum marketCaps <= 1)
      by (apply Qcdiv_le_one; [by apply qsum_bounds_element|done]).
    split; [apply Qcmult_nonneg_nonneg; tauto|].
    apply Qcle_trans with (1 * (1 - BaseWeight s)).
    + apply Qcmult_le_compat_r; tauto.
    + rewrite Qcmult_1_l. tauto.
  - apply Forall_singleton. by exists (BaseWeight s).
Qed.

(** X6. In exact arithmetic, the target weights do not depend on the unit
    of the market caps: two configurations with the same targets and base
    weight, whose sources answer the same numbers up to a factor that is not
    zero, get the same target weights. *)
Theorem getTargetWeights_unit_independent (s1 s2 : Strategy)
  (marketCaps : list Qc) (k : Qc) :
  TargetCurrencies s1 = TargetCurrencies s2 ->
  BaseWeight s1 = BaseWeight s2 ->
  Forall2 (fun c q =>
             glassnode.QueryMarketCapInUSD (glassnode s1) c = (Finite q, None))
          (TargetCurrencies s1) marketCaps ->
  Forall2 (fun c q =>
             glassnode.QueryMarketCapInUSD (glassnode s2) c
             = (Finite (q * k), None))
          (TargetCurrencies s1) marketCaps ->
  qsum marketCaps ≠ 0 -> k ≠ 0 ->
  getTargetWeights s1 = getTargetWeights s2.
Proof.
  intros Htargets Hbase Hcaps1 Hcaps2 Hsum Hk.
  rewrite (getTargetWeights_closed_form s1 marketCaps) by done.
  rewrite (getTargetWeights_closed_form s2 ((fun q => q * k) <$> marketCaps)).
  - rewrite Hbase. do 2 f_equal. unfold finiteSlice. f_equal.
    rewrite <- list_fmap_compose. apply list_fmap_ext. intros _ q _.
    unfold compose. rewrite qsum_scale. by field.
  - rewrite <- Htargets. by apply Forall2_fmap_r.
  - rewrite qsum_scale. intros [?|?]%Qcmult_integral; done.
Qed.

(** ** The portfolio snapshot: [getPrices], [getQuantities], [getSymbols] *)

(** A list either answers without error everywhere or splits at the first
    element that answers with an error. *)
Lemma first_error {A} (f : A -> option error) (l : list A) :
  (∀ x, x ∈ l -> f x = None)
  ∨ (∃ before x after e,
       l = before ++ x :: after
       ∧ (∀ y, y ∈ before -> f y = None)
       ∧ f x = Some e).
Proof.
  induction l as [|x l IH].
  - left. by intros x ?%elem_of_nil.
  - destruct (f x) as [e|] eqn:Hx.
    + right. exists [], x, l, e. split; [done|]. split; [|done].
      by intros y ?%elem_of_nil.
    + destruct IH as [Hall|(before & x' & after & e & -> & Hall & Hfail)].
      * left. intros y [->|Hy]%elem_of_cons; auto.
      * right. exists (x :: before), x', after, e. split; [done|].
        split; [|done]. intros y [->|Hy]%elem_of_cons; auto.
Qed.

Section Prices.

Variable session : bbgo.ExchangeSession.
Variable baseCurrency : string.

(** The answer of the exchange for a target currency: its last price and
    the error of the query. *)
Local Abbreviation tickerOf :=
  (fun currency => bbgo.QueryTicker session (currency +:+ baseCurrency)).
Local Abbreviation priceOf :=
  (fun currency => Float64 (Last (tickerOf currency).1)).

Lemma queryPrices_success (currencies : list string) (prices : Float64Slice) :
  (∀ c, c ∈ currencies -> (tickerOf c).2 = None) ->
  queryPrices session baseCurrency currencies prices
  = (prices ++ (priceOf <$> currencies), None).
Proof.
  revert prices. induction currencies as [|c cs IH]; intros prices Hall.
  - simpl. by rewrite app_nil_r.
  - rewrite fmap_cons. simpl.
    pose proof (Hall c (list_elem_of_here c cs)) as Hc.
    destruct (bbgo.QueryTicker session (c +:+ baseCurrency))
      as [ticker err].
    simpl in Hc. subst err.
    rewrite IH by (intros c' Hc'; apply Hall; by apply list_elem_of_further).
    by rewrite <- app_assoc.
Qed.

Lemma queryPrices_failure (before after : list string) (c : string)
  (e : error) (prices : Float64Slice) :
  (∀ c', c' ∈ before -> (tickerOf c').2 = None) ->
  (tickerOf c).2 = Some e ->
  queryPrices session baseCurrency (before ++ c :: after) prices
  = (prices ++ (priceOf <$> before), Some e).
Proof.
  revert prices. induction before as [|b bs IH]; intros prices Hall Hc.
  - simpl. destruct (bbgo.QueryTicker session (c +:+ baseCurrency))
      as [ticker err]. simpl in Hc. subst err. by rewrite app_nil_r.
  - rewrite fmap_cons. simpl.
    pose proof (Hall b (list_elem_of_here b bs)) as Hb.
    destruct (bbgo.QueryTicker session (b +:+ baseCurrency))
      as [ticker err].
    simpl in Hb. subst err.
    rewrite IH; [|intros c' Hc'; apply Hall; by apply list_elem_of_further
                 |done].
    by rewrite <- app_assoc.
Qed.

End Prices.

(** X7. [getPrices] returns without error exactly when the ticker of every
    target symbol is obtained; the prices are then the last prices of the
    targets in list order, followed by the price 1 of the base currency. *)
Theorem getPrices_success (s : Strategy) (session : bbgo.ExchangeSession) :
  ((getPrices s session).2 = None
   ↔ ∀ c, c ∈ TargetCurrencies s ->
          (bbgo.QueryTicker session (c +:+ BaseCurrency s)).2 = None)
  ∧ (∀ prices : Float64Slice,
       getPrices s session = (prices, None) ->
       length prices = (length (TargetCurrencies s) + 1)%nat
       ∧ prices !! length (TargetCurrencies s) = Some (Finite 1)
       ∧ ∀ (i : nat) (c : string),
           TargetCurrencies s !! i = Some c ->
           prices !! i
           = Some (Float64
                     (Last (bbgo.QueryTicker session
                              (c +:+ BaseCurrency s)).1))).
Proof.
  unfold getPrices.
  destruct (first_error
              (fun c => (bbgo.QueryTicker session (c +:+ BaseCurrency s)).2)
              (TargetCurrencies s))
    as [Hall|(before & c & after & e & Hsplit & Hall & He)].
  - rewrite queryPrices_success by done. simpl. split; [done|].
    intros prices [= <-]. rewrite length_app, length_fmap. simpl.
    split; [done|]. split.
    + rewrite lookup_app_r by (by rewrite length_fmap).
      by rewrite length_fmap, Nat.sub_diag.
    + intros i c Hc. rewrite lookup_app_l
        by (rewrite length_fmap; by eapply lookup_lt_Some).
      by rewrite list_lookup_fmap, Hc.
  - rewrite Hsplit, (queryPrices_failure _ _ before after c e) by done.
    simpl. split; [|done]. split; [done|]. intros Hnone.
    rewrite Hnone in He; [done|].
    apply elem_of_app. right. apply list_elem_of_here.
Qed.

(** X8. When a ticker query fails, [getPrices] returns the error of the
    first failing query together with the prices gathered before it, one
    per target before the failing one (none when the first query fails):
    fewer than there are targets, and without the price of the base
    currency. *)
Theorem getPrices_failure (s : Strategy) (session : bbgo.ExchangeSession)
  (before after : list string) (c : string) (e : error) :
  TargetCurrencies s = before ++ c :: after ->
  (∀ c', c' ∈ before ->
         (bbgo.QueryTicker session (c' +:+ BaseCurrency s)).2 = None) ->
  (bbgo.QueryTicker session (c +:+ BaseCurrency s)).2 = Some e ->
  getPrices s session
  = ((fun c' =>
        Float64 (Last (bbgo.QueryTicker session (c' +:+ BaseCurrency s)).1))
       <$> before, Some e)
  ∧ (length (getPrices s session).1 < length (TargetCurrencies s))%nat.
Proof.
  intros Hsplit Hall He. unfold getPrices.
  rewrite Hsplit, (queryPrices_failure _ _ before after c e) by done.
  simpl. split; [done|]. rewrite length_fmap, length_app. simpl. lia.
Qed.

Lemma getQuantities_eq (s : Strategy) (balances : BalanceMap) :
  getQuantities s balances
  = (quantityOf s balances <$> TargetCurrencies s)
    ++ [quantityOf s balances (BaseCurrency s)].
Proof.
  unfold getQuantities. f_equal.
  assert (Hgen : ∀ cs (acc : Float64Slice),
    fold_left (fun quantities currency =>
                 quantities ++ [quantityOf s balances currency]) cs acc
    = acc ++ (quantityOf s balances <$> cs)).
  { induction cs as [|c cs IH]; intros acc; simpl.
    - by rewrite app_nil_r.
    - by rewrite IH, <- app_assoc. }
  by rewrite Hgen.
Qed.

(** X9. The quantity of the i-th asset (the targets in list order, then the
    base currency) is the available amount of its balance, or the [Total] of
    the balance when [IgnoreLocked] is set; a currency without a balance
    counts as 0 under either setting. *)
Theorem getQuantities_lookup (s : Strategy) (balances : BalanceMap)
  (i : nat) (currency : string) :
  (TargetCurrencies s ++ [BaseCurrency s]) !! i = Some currency ->
  getQuantities s balances !! i
  = Some (Float64
            match balances !! currency with
            | Some balance =>
                if IgnoreLocked s then Total balance else Available balance
            | None => 0
            end).
Proof.
  intros Hi. rewrite getQuantities_eq.
  change [quantityOf s balances (BaseCurrency s)]
    with (quantityOf s balances <$> [BaseCurrency s]).
  rewrite <- fmap_app, list_lookup_fmap, Hi. simpl. f_equal.
  unfold quantityOf, lookupBalance.
  destruct (balances !! currency) as [balance|]; simpl;
    destruct (IgnoreLocked s); try done.
  f_equal. by apply Qc_canon_eq.
Qed.

Lemma getSymbols_eq (s : Strategy) :
  getSymbols s = (fun c => c +:+ BaseCurrency s) <$> TargetCurrencies s.
Proof.
  unfold getSymbols.
  assert (Hgen : ∀ cs (acc : list string),
    fold_left (fun symbols currency =>
                 symbols ++ [currency +:+ BaseCurrency s]) cs acc
    = acc ++ ((fun c => c +:+ BaseCurrency s) <$> cs)).
  { induction cs as [|c cs IH]; intros acc; simpl.
    - by rewrite app_nil_r.
    - by rewrite IH, <- app_assoc. }
  by rewrite Hgen.
Qed.

(** X10. [getSymbols] gives one symbol per target currency, and distinct
    target currencies give distinct symbols. *)
Theorem getSymbols_distinct (s : Strategy) :
  length (getSymbols s) = length (TargetCurrencies s)
  ∧ (NoDup (TargetCurrencies s) -> NoDup (getSymbols s)).
Proof.
  rewrite getSymbols_eq. split; [by rewrite length_fmap|].
  apply NoDup_fmap_2. intros c1 c2. apply symbol_inj.
Qed.

(** X11. A configuration accepted by [Validate] has at least one symbol,
    and the pair of the base currency with itself is not among them. *)
Theorem Validate_symbols (s : Strategy) :
  Validate s = None ->
  getSymbols s ≠ []
  ∧ (BaseCurrency s +:+ BaseCurrency s) ∉ getSymbols s.
Proof.
  unfold Validate.
  destruct (decide (length (TargetCurrencies s) = 0%nat)) as [|Hlen]; [done|].
  destruct (validateTargets _ _) as [err|] eqn:Htargets; [done|].
  intros _. apply validateTargets_None in Htargets.
  rewrite getSymbols_eq. split.
  - intros Hnil. apply fmap_nil_inv in Hnil. by rewrite Hnil in Hlen.
  - intros (c & Heq & Hc)%list_elem_of_fmap.
    apply symbol_inj in Heq. by subst c.
Qed.

(** ** Further properties of the decision engine *)

Section Engine.

Variable castNonFinite : float64 -> Value.
Variable s : Strategy.
Variables prices currentWeights targetWeights : Float64Slice.
Variable totalValue : float64.

Local Abbreviation orderAt :=
  (submitOrderAt castNonFinite s prices currentWeights targetWeights
     totalValue).
Local Abbreviation ordersFrom :=
  (submitOrdersFrom castNonFinite s prices currentWeights targetWeights
     totalValue).

(** An iteration returns as soon as its three reads are in range. *)
Lemma submitOrderAt_returns (i : nat) (currency : string) :
  (i < length currentWeights)%nat -> (i < length prices)%nat ->
  (i < length targetWeights)%nat ->
  ∃ o, orderAt i currency = Ok o.
Proof.
  intros [w Hw]%lookup_lt_is_Some_2 [p Hp]%lookup_lt_is_Some_2
         [t Ht]%lookup_lt_is_Some_2.
  rewrite (submitOrderAt_unfold _ _ _ _ _ _ _ _ _ _ _ Hw Hp Ht).
  destruct (fabs _ <? _)%float; eauto.
Qed.

(** An iteration can only stop on an index out of range. *)
Lemma submitOrderAt_panic (i : nat) (currency : string) (p : panic) :
  orderAt i currency = Panicked p -> ∃ j n, p = IndexOutOfRange j n.
Proof.
  unfold submitOrderAt.
  destruct (index currentWeights _) as [w|pw] eqn:Hw; simpl;
    [|intros [= <-]; apply index_panic in Hw; eauto].
  destruct (index prices _) as [pr|pp] eqn:Hp; simpl;
    [|intros [= <-]; apply index_panic in Hp; eauto].
  destruct (index targetWeights _) as [t|pt] eqn:Ht; simpl;
    [|intros [= <-]; apply index_panic in Ht; eauto].
  destruct (fabs _ <? _)%float; [done|].
  by destruct (decide (Sign _ < 0)%Z).
Qed.

Lemma submitOrdersFrom_returns (currencies : list string) :
  ∀ (i : nat) (submitOrders : list SubmitOrder),
    (i + length currencies <= length currentWeights)%nat ->
    (i + length currencies <= length prices)%nat ->
    (i + length currencies <= length targetWeights)%nat ->
    ∃ orders, ordersFrom i currencies submitOrders = Ok orders.
Proof.
  induction currencies as [|c cs IH]; intros i acc Hw Hp Ht; simpl in *;
    [eauto|].
  destruct (submitOrderAt_returns i c) as [o ->]; [lia..|]. simpl.
  destruct o; apply IH; lia.
Qed.

Lemma submitOrdersFrom_panic (currencies : list string) :
  ∀ (i : nat) (submitOrders : list SubmitOrder) (p : panic),
    ordersFrom i currencies submitOrders = Panicked p ->
    ∃ j n, p = IndexOutOfRange j n.
Proof.
  induction currencies as [|c cs IH]; intros i acc p; simpl; [done|].
  destruct (orderAt i c) as [o|po] eqn:Ho; simpl.
  - destruct o; apply IH.
  - intros [= <-]. by apply submitOrderAt_panic in Ho.
Qed.

(** The loop reads the three slices at every index it visits. *)
Lemma submitOrdersFrom_reads (currencies : list string) :
  ∀ (i : nat) (submitOrders orders : list SubmitOrder),
    ordersFrom i currencies submitOrders = Ok orders ->
    (i + length currencies <= length currentWeights)%nat
    ∧ (i + length currencies <= length prices)%nat
    ∧ (i + length currencies <= length targetWeights)%nat
    ∨ currencies = [].
Proof.
  induction currencies as [|c cs IH]; intros i acc orders; [by right|].
  simpl. destruct (orderAt i c) as [o|] eqn:Ho; [|done]. simpl.
  destruct (submitOrderAt_reads _ _ _ _ _ _ _ _ _ Ho)
    as (w & p & t & Hw%lookup_lt_Some & Hp%lookup_lt_Some
        & Ht%lookup_lt_Some).
  intros Hrest. left.
  assert (Hcs : ordersFrom (S i) cs (acc ++ omap id [o]) = Ok orders).
  { destruct o; simpl; [done|]. by rewrite app_nil_r. }
  destruct (IH _ _ _ Hcs) as [(? & ? & ?)| ->]; simpl; lia.
Qed.

(** The new orders carry, in list order, symbols of the currencies
    visited. *)
Lemma submitOrdersFrom_symbols (currencies : list string) :
  ∀ (i : nat) (submitOrders orders : list SubmitOrder),
    ordersFrom i currencies submitOrders = Ok orders ->
    ∃ new,
      orders = submitOrders ++ new
      ∧ sublist (Symbol <$> new)
                ((fun c => c +:+ BaseCurrency s) <$> currencies).
Proof.
  induction currencies as [|c cs IH]; intros i acc orders; simpl.
  - intros [= <-]. exists []. by rewrite app_nil_r.
  - destruct (orderAt i c) as [o|] eqn:Ho; [|done]. simpl.
    destruct o as [order|]; intros Hrest;
      destruct (IH _ _ _ Hrest) as (new & -> & Hsub).
    + exists (order :: new). split; [by rewrite <- app_assoc|].
      destruct (submitOrderAt_reads _ _ _ _ _ _ _ _ _ Ho)
        as (w & p & t & Hw & Hp & Ht).
      destruct (submitOrderAt_order _ _ _ _ _ _ _ _ _ _ _ _ Hw Hp Ht Ho)
        as (_ & Hsym & _).
      rewrite fmap_cons, Hsym. by apply sublist_skip.
    + exists new. split; [done|]. by apply sublist_cons.
Qed.

(** With a threshold that is not positive no iteration is skipped. *)
Lemma submitOrdersFrom_all (currencies : list string) :
  Threshold s <= 0 ->
  ∀ (i : nat) (submitOrders orders : list SubmitOrder),
    ordersFrom i currencies submitOrders = Ok orders ->
    length orders = (length submitOrders + length currencies)%nat.
Proof.
  intros Hth. induction currencies as [|c cs IH]; intros i acc orders; simpl.
  - intros [= <-]. lia.
  - destruct (orderAt i c) as [o|] eqn:Ho; [|done]. simpl.
    destruct (submitOrderAt_reads _ _ _ _ _ _ _ _ _ Ho)
      as (w & p & t & Hw & Hp & Ht).
    rewrite (submitOrderAt_unfold _ _ _ _ _ _ _ _ _ _ _ Hw Hp Ht) in Ho.
    assert (Hpass : (fabs (t - w) <? Float64 (Threshold s))%float = false).
    { unfold Float64. destruct (fabs (t - w)%float) as [a| | |] eqn:Habs;
        simpl; try done;
        [|by destruct (t - w)%float; simpl in Habs].
      apply bool_decide_eq_false. intros Hlt.
      assert (0 <= a) as Ha.
      { destruct (t - w)%float as [d| | |]; simpl in Habs; try done.
        injection Habs as <-. destruct (decide (d < 0)) as [Hd|Hd].
        - by apply Qclt_le_weak, Qcopp_pos.
        - by apply Qcnot_lt_le. }
      apply (Qclt_not_le _ _ Hlt). by apply Qcle_trans with 0. }
    rewrite Hpass in Ho. injection Ho as <-.
    intros Hrest. apply IH in Hrest. rewrite length_app in Hrest.
    simpl in Hrest. lia.
Qed.

End Engine.

Lemma sublist_same_length {A} (l1 l2 : list A) :
  sublist l1 l2 -> length l1 = length l2 -> l1 = l2.
Proof.
  induction 1 as [|x l1 l2 _ IH|x l1 l2 Hsub _]; simpl; intros Hlen.
  - done.
  - f_equal. apply IH. lia.
  - apply sublist_length in Hsub. lia.
Qed.

(** X12. [generateSubmitOrders] returns exactly when the prices, the market
    values and the target weights have an entry for every target currency;
    otherwise it stops on an index out of range. *)
Theorem generateSubmitOrders_returns_iff castNonFinite (s : Strategy)
  (prices marketValues targetWeights : Float64Slice) :
  ((∃ orders,
      generateSubmitOrders castNonFinite s prices marketValues targetWeights
      = Ok orders)
   ↔ (length (TargetCurrencies s) <= length prices)%nat
     ∧ (length (TargetCurrencies s) <= length marketValues)%nat
     ∧ (length (TargetCurrencies s) <= length targetWeights)%nat)
  ∧ (∀ p : panic,
       generateSubmitOrders castNonFinite s prices marketValues targetWeights
       = Panicked p ->
       ∃ j n, p = IndexOutOfRange j n).
Proof.
  unfold generateSubmitOrders. split; [split|].
  - intros [orders Hrun]. apply submitOrdersFrom_reads in Hrun.
    rewrite length_Normalize in Hrun.
    destruct Hrun as [(? & ? & ?)|Hnil]; [simpl in *; lia|].
    rewrite Hnil. simpl. lia.
  - intros (Hp & Hv & Ht). apply submitOrdersFrom_returns;
      rewrite ?length_Normalize; simpl; lia.
  - intros p. apply submitOrdersFrom_panic.
Qed.


(** X14. With a threshold of zero (or less) the dead-band is switched off:
    every target currency gets an order. *)
Theorem generateSubmitOrders_no_dead_band castNonFinite (s : Strategy)
  (prices marketValues targetWeights : Float64Slice)
  (orders : list SubmitOrder) :
  Threshold s <= 0 ->
  generateSubmitOrders castNonFinite s prices marketValues targetWeights
  = Ok orders ->
  length orders = length (TargetCurrencies s)
  ∧ Symbol <$> orders = getSymbols s.
Proof.
  intros Hth Hrun. unfold generateSubmitOrders in Hrun.
  pose proof (submitOrdersFrom_all _ _ _ _ _ _ _ Hth _ _ _ Hrun) as Hlen.
  simpl in Hlen. split; [done|].
  apply submitOrdersFrom_symbols in Hrun as (new & -> & Hsub). simpl in *.
  rewrite getSymbols_eq. apply sublist_same_length; [done|].
  rewrite !length_fmap. done.
Qed.

(** ** Further properties of [logAssets] and [Validate] *)

(** X18. [logAssets] stops on its own panic exactly when the market values
    do not have one entry more than there are target currencies; any other
    panic of [logAssets] is an index out of range. *)
Theorem logAssets_panic_iff (s : Strategy)
  (marketValues prices quantities : Float64Slice) :
  (logAssets s marketValues prices quantities
   = Panicked (PanicMessage "len(weights)-1 != len(s.TargetCurrencies)")
   ↔ length marketValues ≠ (length (TargetCurrencies s) + 1)%nat)
  ∧ (∀ p : panic,
       logAssets s marketValues prices quantities = Panicked p ->
       p = PanicMessage "len(weights)-1 != len(s.TargetCurrencies)"
       ∨ ∃ j n, p = IndexOutOfRange j n).
Proof.
  split; cycle 1.
  { intros p. unfold logAssets. destruct (decide _); [intros [= <-]; by left|].
    destruct (logTargets _ _ _ _ _) as [lines|pl] eqn:Hlines; simpl.
    - destruct (index (Normalize marketValues) _) as [w|pw] eqn:Hw; simpl.
      + destruct (index quantities _) as [q|pq] eqn:Hq; simpl; [done|].
        intros [= <-]. apply index_panic in Hq. eauto.
      + intros [= <-]. apply index_panic in Hw. eauto.
    - intros [= <-]. apply logTargets_panic in Hlines. eauto. }
  unfold logAssets. rewrite length_Normalize.
  destruct (decide (Z.of_nat (length marketValues) - 1
                    ≠ Z.of_nat (length (TargetCurrencies s)))%Z)
    as [Hne|Heq].
  - split; [intros _; lia|done].
  - split; [|lia]. intros Hpanic. exfalso.
    destruct (logTargets _ _ _ _ _) as [lines|p] eqn:Hlines; simpl in Hpanic.
    + destruct (index (Normalize marketValues) _) as [w|p] eqn:Hw;
        simpl in Hpanic.
      * destruct (index quantities _) as [q|p] eqn:Hq; simpl in Hpanic;
          [done|].
        apply index_panic in Hq. congruence.
      * apply index_panic in Hw. congruence.
    + apply logTargets_panic in Hlines as (j & n & ->). done.
Qed.

Lemma logTargets_Ok (weights quantities : Float64Slice) (assets : list string) :
  ∀ (i : nat) (lines out : list assetLog),
    logTargets weights quantities i assets lines = Ok out ->
    ∃ new,
      out = lines ++ new
      ∧ length new = length assets
      ∧ ∀ (k : nat) (asset : string),
          assets !! k = Some asset ->
          ∃ w q,
            weights !! (i + k)%nat = Some w
            ∧ quantities !! (i + k)%nat = Some q
            ∧ new !! k = Some (mkAssetLog asset w q).
Proof.
  induction assets as [|a rest IH]; intros i lines out; simpl.
  - intros [= <-]. exists []. by rewrite app_nil_r.
  - destruct (index weights _) as [w|] eqn:Hw; [|done]. simpl.
    destruct (index quantities _) as [q|] eqn:Hq; [|done]. simpl.
    apply index_Ok in Hw. apply index_Ok in Hq.
    intros Hrest. destruct (IH _ _ _ Hrest) as (new & -> & Hlen & Hat).
    exists (mkAssetLog a w q :: new).
    split; [by rewrite <- app_assoc|]. split; [simpl; lia|].
    intros [|k] asset Hk.
    + simpl in Hk. injection Hk as <-. exists w, q.
      by rewrite Nat.add_0_r.
    + destruct (Hat k asset Hk) as (w' & q' & Hw' & Hq' & Hnew).
      exists w', q'. by replace (i + S k)%nat with (S i + k)%nat by lia.
Qed.

Lemma index_last {A} (l : list A) (x : A) :
  index l (Z.of_nat (length l) - 1) = Ok x ->
  last l = Some x ∧ l !! (length l - 1)%nat = Some x.
Proof.
  unfold index. destruct (decide (Z.of_nat (length l) - 1 < 0)%Z); [done|].
  replace (Z.to_nat (Z.of_nat (length l) - 1)) with (length l - 1)%nat
    by lia.
  destruct (l !! (length l - 1)%nat) as [y|] eqn:Hy; [|done].
  intros [= ->]. split; [|done].
  by rewrite last_lookup, <- Nat.sub_1_r.
Qed.

(** X19. When [logAssets] returns it has written one line per target
    currency, with the current weight and the quantity at the index of the
    target, and a last line for the base currency, with the last weight and
    the last quantity. *)
Theorem logAssets_lines (s : Strategy)
  (marketValues prices quantities : Float64Slice) (lines : list assetLog) :
  logAssets s marketValues prices quantities = Ok lines ->
  length lines = (length (TargetCurrencies s) + 1)%nat
  ∧ (∀ (i : nat) (asset : string),
       TargetCurrencies s !! i = Some asset ->
       ∃ w q,
         Normalize marketValues !! i = Some w
         ∧ quantities !! i = Some q
         ∧ lines !! i = Some (mkAssetLog asset w q))
  ∧ (∃ w q,
       last (Normalize marketValues) = Some w
       ∧ last quantities = Some q
       ∧ last lines = Some (mkAssetLog (BaseCurrency s) w q)).
Proof.
  unfold logAssets. destruct (decide _) as [|_]; [done|].
  destruct (logTargets _ _ _ _ _) as [targets|] eqn:Htargets; [|done].
  simpl.
  destruct (index (Normalize marketValues) _) as [w|] eqn:Hw; [|done].
  simpl. destruct (index quantities _) as [q|] eqn:Hq; [|done]. simpl.
  intros [= <-].
  apply logTargets_Ok in Htargets as (new & -> & Hlen & Hat). simpl.
  apply index_last in Hw as [Hw _]. apply index_last in Hq as [Hq _].
  split; [rewrite length_app; simpl; lia|]. split.
  - intros i asset Hi. destruct (Hat i asset Hi) as (w' & q' & ? & ? & Hnew).
    exists w', q'. repeat (split; [done|]).
    rewrite lookup_app_l; [done|]. by eapply lookup_lt_Some.
  - exists w, q. repeat (split; [done|]). apply last_snoc.
Qed.

(** X20. [Validate] reports the first violated invariant in the order of
    its checks: the empty target list, then a target equal to the base
    currency, then the negative threshold, then the negative maximal
    amount. *)
Theorem Validate_first_violation (s : Strategy) :
  (Validate s = Some "taretCurrencies should not be empty"
   ↔ TargetCurrencies s = [])
  ∧ (Validate s = Some "targetCurrencies contain baseCurrency"
     ↔ TargetCurrencies s ≠ [] ∧ BaseCurrency s ∈ TargetCurrencies s)
  ∧ (Validate s = Some "threshold should not less than 0"
     ↔ TargetCurrencies s ≠ [] ∧ (BaseCurrency s ∉ TargetCurrencies s)
       ∧ Threshold s < 0)
  ∧ (Validate s = Some "maxAmount shoud not less than 0"
     ↔ TargetCurrencies s ≠ [] ∧ (BaseCurrency s ∉ TargetCurrencies s)
       ∧ ¬ Threshold s < 0 ∧ MaxAmount s < 0).
Proof.
  assert (Htargets : ∀ cs,
    validateTargets (BaseCurrency s) cs
    = if decide (BaseCurrency s ∈ cs)
      then Some "targetCurrencies contain baseCurrency" else None).
  { induction cs as [|c cs IH]; cbn [validateTargets].
    - by rewrite decide_False by apply not_elem_of_nil.
    - destruct (decide (c = BaseCurrency s)) as [->|Hne].
      + by rewrite decide_True by apply list_elem_of_here.
      + rewrite IH. destruct (decide (BaseCurrency s ∈ cs)) as [Hin|Hnin].
        * by rewrite decide_True by (by apply list_elem_of_further).
        * rewrite decide_False; [done|].
          intros [?|?]%elem_of_cons; congruence. }
  unfold Validate. rewrite Htargets.
  destruct (decide (length (TargetCurrencies s) = 0%nat)) as [Hlen|Hlen].
  { apply length_zero_iff_nil in Hlen. repeat split; try done; tauto. }
  assert (TargetCurrencies s ≠ []) by (by rewrite <- length_zero_iff_nil).
  destruct (decide (BaseCurrency s ∈ TargetCurrencies s)).
  { repeat split; try done; tauto. }
  destruct (decide (Threshold s < 0)).
  { repeat split; try done; tauto. }
  destruct (decide (Sign (MaxAmount s) < 0)%Z) as [Hsign|Hsign];
    rewrite Sign_negative in Hsign; repeat split; try done; tauto.
Qed.

(** ** The rebalance cycle *)

Lemma getTargetWeights_length (s : Strategy) (weights : Float64Slice) :
  getTargetWeights s = (weights, None) ->
  length weights = (length (TargetCurrencies s) + 1)%nat.
Proof.
  destruct (first_failure (glassnode s) (TargetCurrencies s))
    as [Hall|(before & c & after & e & Hsplit & Hall & He)].
  - rewrite getTargetWeights_success by done. intros [= <-].
    by rewrite length_app, length_MulScalar, length_Normalize, length_fmap.
  - by rewrite (getTargetWeights_failure s before c after e).
Qed.

Lemma logAssets_returns (s : Strategy)
  (marketValues prices quantities : Float64Slice) :
  length marketValues = (length (TargetCurrencies s) + 1)%nat ->
  length quantities = (length (TargetCurrencies s) + 1)%nat ->
  ∃ lines, logAssets s marketValues prices quantities = Ok lines.
Proof.
  intros Hv Hq.
  destruct (logAssets s marketValues prices quantities) as [lines|p] eqn:Hlog;
    [eauto|exfalso].
  unfold logAssets in Hlog.
  rewrite decide_False in Hlog by (rewrite length_Normalize; lia).
  pose proof (logTargets_returns (Normalize marketValues) quantities
                (TargetCurrencies s) 0 []) as Hlines.
  destruct (logTargets _ _ _ _ _);
    [|apply Hlines; rewrite ?length_Normalize; lia].
  simpl in Hlog.
  pose proof (index_in_range (Normalize marketValues)
                (Z.of_nat (length (Normalize marketValues)) - 1)) as Hw.
  destruct (index (Normalize marketValues) _);
    [|apply Hw; rewrite length_Normalize; lia].
  simpl in Hlog.
  pose proof (index_in_range quantities
                (Z.of_nat (length quantities) - 1)) as Hqs.
  destruct (index quantities _); [done|apply Hqs; lia].
Qed.

Section RebalanceProperties.

Context (castNonFinite : float64 -> Value).
Context {Store : Type}.
Context (storeOrders : Store -> list Order).
Context (storeAdd : Store -> list Order -> Store).

Local Abbreviation cycleOf :=
  (rebalance castNonFinite storeOrders storeAdd).

(** What the cycle computes once the orders are cancelled, the prices
    fetched and the target weights computed: it does not stop, and it has
    the orders of [generateSubmitOrders] on the market values of the
    snapshot. *)
Lemma rebalance_orders (s : Strategy) (session : bbgo.ExchangeSession)
  (prices targetWeights : Float64Slice) :
  getPrices s session = (prices, None) ->
  getTargetWeights s = (targetWeights, None) ->
  ∃ marketValues lines orders,
    Mul prices (getQuantities s (bbgo.Balances session)) = Ok marketValues
    ∧ logAssets s marketValues prices
        (getQuantities s (bbgo.Balances session)) = Ok lines
    ∧ generateSubmitOrders castNonFinite s prices marketValues targetWeights
      = Ok orders.
Proof.
  intros Hprices%length_getPrices Hweights%getTargetWeights_length.
  pose proof (length_getQuantities s (bbgo.Balances session)) as Hq.
  exists (zip_with fmul prices (getQuantities s (bbgo.Balances session))).
  assert (Hzip : length (zip_with fmul prices
                           (getQuantities s (bbgo.Balances session)))
                 = (length (TargetCurrencies s) + 1)%nat)
    by (rewrite length_zip_with; lia).
  destruct (logAssets_returns s _ prices _ Hzip Hq) as [lines Hlines].
  destruct (submitOrdersFrom_returns castNonFinite s prices
              (Normalize (zip_with fmul prices
                            (getQuantities s (bbgo.Balances session))))
              targetWeights
              (Sum (zip_with fmul prices
                      (getQuantities s (bbgo.Balances session))))
              (TargetCurrencies s) 0 [])
    as [orders Horders]; rewrite ?length_Normalize; simpl; [lia..|].
  exists lines, orders. split; [|done].
  unfold Mul. rewrite decide_True; [done|lia].
Qed.

(** X21. A rebalance cycle never panics: the slices it builds have one
    entry per target currency and one for the base currency, so no index is
    out of range and the check of [logAssets] passes. *)
Theorem rebalance_never_panics (s : Strategy) (orderExecutor : OrderExecutor)
  (session : bbgo.ExchangeSession) (orderStore : Store) :
  ∃ c, cycleOf s orderExecutor session orderStore = Ok c.
Proof.
  unfold rebalance. cbv zeta.
  destruct (CancelOrders orderExecutor _); [eauto|].
  destruct (getPrices s session) as [prices [e|]] eqn:Hprices; [eauto|].
  destruct (getTargetWeights s) as [weights [e|]] eqn:Hweights; [eauto|].
  destruct (rebalance_orders s session prices weights Hprices Hweights)
    as (values & lines & orders & Hvalues & Hlines & Horders).
  rewrite Hvalues. simpl. rewrite Hlines. simpl. rewrite Horders. simpl.
  destruct (DryRun s); [eauto|].
  destruct (SubmitOrders orderExecutor orders) as [created [e|]]; eauto.
Qed.

(** X22. [SubmitOrders] is called exactly when the open orders were
    cancelled, every ticker and every market cap was obtained, and the
    strategy is not in dry run; it then receives the orders of
    [generateSubmitOrders], even when there are none. *)
Theorem rebalance_submits_iff (s : Strategy) (orderExecutor : OrderExecutor)
  (session : bbgo.ExchangeSession) (orderStore : Store) (c : cycle Store) :
  cycleOf s orderExecutor session orderStore = Ok c ->
  (is_Some (submitRequest c)
   ↔ CancelOrders orderExecutor (storeOrders orderStore) = None
     ∧ (getPrices s session).2 = None
     ∧ (getTargetWeights s).2 = None
     ∧ DryRun s = false)
  ∧ (∀ orders,
       submitRequest c = Some orders ->
       ∃ marketValues,
         Mul (getPrices s session).1
             (getQuantities s (bbgo.Balances session)) = Ok marketValues
         ∧ generateSubmitOrders castNonFinite s (getPrices s session).1
             marketValues (getTargetWeights s).1 = Ok orders).
Proof.
  unfold rebalance. cbv zeta.
  destruct (CancelOrders orderExecutor _) as [e|].
  { intros [= <-]. simpl. split; [|done].
    split; [by intros [? ?]|by intros [? _]]. }
  destruct (getPrices s session) as [prices [e|]] eqn:Hprices.
  { intros [= <-]. simpl. split; [|done].
    split; [by intros [? ?]|by intros (_ & ? & _)]. }
  destruct (getTargetWeights s) as [weights [e|]] eqn:Hweights.
  { intros [= <-]. simpl. split; [|done].
    split; [by intros [? ?]|by intros (_ & _ & ? & _)]. }
  destruct (rebalance_orders s session prices weights Hprices Hweights)
    as (values & lines & orders & Hvalues & Hlines & Horders).
  rewrite Hvalues. simpl. rewrite Hlines. simpl. rewrite Horders. simpl.
  destruct (DryRun s).
  { intros [= <-]. simpl. split; [|done].
    split; [by intros [? ?]|by intros (_ & _ & _ & ?)]. }
  destruct (SubmitOrders orderExecutor orders) as [created [e|]];
    intros [= <-]; simpl; (split; [by split; eauto|]);
    intros ? [= <-]; eauto.
Qed.

(** X23. The order store changes only after a submission that succeeded: it
    then gains the orders the executor created, and in every other cycle
    (an error, or a dry run) it is left as it was. *)
Theorem rebalance_store (s : Strategy) (orderExecutor : OrderExecutor)
  (session : bbgo.ExchangeSession) (orderStore : Store) (c : cycle Store) :
  cycleOf s orderExecutor session orderStore = Ok c ->
  cancelRequest c = storeOrders orderStore
  ∧ (submitRequest c = None ∨ cycleError c ≠ None ->
     cycleStore c = orderStore)
  ∧ (∀ orders,
       submitRequest c = Some orders -> cycleError c = None ->
       (SubmitOrders orderExecutor orders).2 = None
       ∧ cycleStore c
         = storeAdd orderStore (SubmitOrders orderExecutor orders).1)
  ∧ (∀ orders e,
       submitRequest c = Some orders -> cycleError c = Some e ->
       (SubmitOrders orderExecutor orders).2 = Some e).
Proof.
  unfold rebalance. cbv zeta.
  destruct (CancelOrders orderExecutor _) as [e|];
    [intros [= <-]; by repeat split|].
  destruct (getPrices s session) as [prices [e|]] eqn:Hprices;
    [intros [= <-]; by repeat split|].
  destruct (getTargetWeights s) as [weights [e|]] eqn:Hweights;
    [intros [= <-]; by repeat split|].
  destruct (rebalance_orders s session prices weights Hprices Hweights)
    as (values & lines & orders & Hvalues & Hlines & Horders).
  rewrite Hvalues. simpl. rewrite Hlines. simpl. rewrite Horders. simpl.
  destruct (DryRun s); [intros [= <-]; by repeat split|].
  destruct (SubmitOrders orderExecutor orders) as [created [e|]] eqn:Hsubmit;
    intros [= <-]; simpl.
  - split; [done|]. split; [done|]. split; [done|].
    intros ? ? [= <-] [= <-]. by rewrite Hsubmit.
  - split; [done|]. split; [by intros [?|?]|]. split; [|done].
    intros ? [= <-] _. by rewrite Hsubmit.
Qed.

(** X24. Every order a cycle submits is a limit order for a symbol of
    [getSymbols]; under a configuration accepted by [Validate] it is never
    for the pair of the base currency with itself. *)
Theorem rebalance_submitted_orders (s : Strategy)
  (orderExecutor : OrderExecutor) (session : bbgo.ExchangeSession)
  (orderStore : Store) (c : cycle Store) (orders : list SubmitOrder)
  (o : SubmitOrder) :
  cycleOf s orderExecutor session orderStore = Ok c ->
  submitRequest c = Some orders ->
  o ∈ orders ->
  Symbol o ∈ getSymbols s
  ∧ Type_ o = OrderTypeLimit
  ∧ (Validate s = None -> Symbol o ≠ BaseCurrency s +:+ BaseCurrency s).
Proof.
  unfold rebalance. cbv zeta.
  destruct (CancelOrders orderExecutor _) as [e|]; [by intros [= <-]|].
  destruct (getPrices s session) as [prices [e|]] eqn:Hprices;
    [by intros [= <-]|].
  destruct (getTargetWeights s) as [weights [e|]] eqn:Hweights;
    [by intros [= <-]|].
  destruct (rebalance_orders s session prices weights Hprices Hweights)
    as (values & lines & orders' & Hvalues & Hlines & Horders).
  rewrite Hvalues. simpl. rewrite Hlines. simpl. rewrite Horders. simpl.
  intros Hcycle Hrequest Ho.
  assert (orders' = orders) as ->.
  { destruct (DryRun s); [by injection Hcycle as <-|].
    destruct (SubmitOrders orderExecutor orders') as [created [e|]];
      injection Hcycle as <-; simpl in Hrequest; congruence. }
  clear Hcycle Hrequest. unfold generateSubmitOrders in Horders.
  destruct (submitOrdersFrom_origin _ _ _ _ _ _ _ _ Horders Ho)
    as (i & currency & Hc & Hat).
  destruct (submitOrderAt_reads _ _ _ _ _ _ _ _ _ Hat)
    as (w & p & t & Hw & Hp & Ht).
  destruct (submitOrderAt_order _ _ _ _ _ _ _ _ _ _ _ _ Hw Hp Ht Hat)
    as (_ & Hsym & _ & Htype & _).
  assert (Hin : Symbol o ∈ getSymbols s).
  { rewrite getSymbols_eq, Hsym. apply list_elem_of_fmap.
    exists currency. split; [done|]. apply list_elem_of_lookup. eauto. }
  split; [done|]. split; [done|].
  intros Hvalid Hbase. rewrite Hbase in Hin.
  unfold Validate in Hvalid.
  destruct (decide (length (TargetCurrencies s) = 0%nat)); [done|].
  destruct (validateTargets _ _) as [err|] eqn:Htargets; [done|].
  apply validateTargets_None in Htargets.
  rewrite getSymbols_eq in Hin.
  apply list_elem_of_fmap in Hin as (c' & Heq & Hc').
  apply symbol_inj in Heq. by subst c'.
Qed.

End RebalanceProperties.

(** ** The further properties on the scenarios *)

(** A property of every number of a literal list. *)
Ltac each_number := apply (bool_decide_unpack _); vm_compute; reflexivity.

Lemma Normalize_scale_invariant_witness :
  Normalize (MulScalar (finiteSlice scenarioValues) (Finite (Q2Qc 100)))
  = Normalize (finiteSlice scenarioValues).
Proof.
  apply (Normalize_scale_invariant scenarioValues (Q2Qc 100));
    vm_compute; discriminate.
Defined.

Lemma Normalize_idempotent_witness :
  Normalize (Normalize (finiteSlice scenarioValues))
  = Normalize (finiteSlice scenarioValues).
Proof.
  apply (Normalize_idempotent scenarioValues). vm_compute. discriminate.
Defined.

Lemma Normalize_weights_in_unit_interval_witness :
  ∃ (x : float64) (w : Qc),
    Normalize (finiteSlice scenarioValues) !! 0%nat = Some x
    ∧ x = Finite w ∧ 0 <= w ∧ w <= 1.
Proof.
  eexists.
  destruct (Normalize_weights_in_unit_interval scenarioValues
              ltac:(each_number) ltac:(reflexivity) 0%nat _ eq_refl)
    as (w & Hw & Hbounds).
  exists w. split; [reflexivity|]. split; [exact Hw|exact Hbounds].
Defined.

Lemma getTargetWeights_proportional_witness :
  ∃ weights : Float64Slice,
    getTargetWeights scenario = (weights, None)
    ∧ weights !! 0%nat
      = Some (Finite (Q2Qc 300 / qsum [Q2Qc 300; Q2Qc 700]
                      * (1 - BaseWeight scenario))).
Proof.
  destruct (getTargetWeights_proportional scenario [Q2Qc 300; Q2Qc 700]
              ltac:(repeat constructor) ltac:(vm_compute; discriminate))
    as (weights & Hweights & Hat & _).
  exists weights. split; [exact Hweights|]. apply Hat. reflexivity.
Defined.

Lemma getTargetWeights_in_unit_interval_witness :
  ∃ weights : Float64Slice,
    getTargetWeights scenario = (weights, None)
    ∧ Forall (fun x => ∃ w : Qc, x = Finite w ∧ 0 <= w ∧ w <= 1) weights.
Proof.
  apply (getTargetWeights_in_unit_interval scenario [Q2Qc 300; Q2Qc 700]).
  - repeat constructor.
  - each_number.
  - reflexivity.
  - vm_compute. discriminate.
  - vm_compute. discriminate.
Defined.

Lemma getTargetWeights_unit_independent_witness :
  getTargetWeights scenarioInHundreds = getTargetWeights scenario.
Proof.
  apply (getTargetWeights_unit_independent scenarioInHundreds scenario
           [Q2Qc 3; Q2Qc 7] (Q2Qc 100)).
  - reflexivity.
  - reflexivity.
  - repeat constructor.
  - repeat constructor; vm_compute; do 2 f_equal; by apply Qc_canon_eq.
  - vm_compute. discriminate.
  - vm_compute. discriminate.
Defined.

Lemma getPrices_success_witness :
  ∃ prices : Float64Slice,
    getPrices scenario scenarioSession = (prices, None)
    ∧ length prices = 3%nat
    ∧ prices !! 2%nat = Some (Finite 1).
Proof.
  eexists. split; [reflexivity|].
  destruct (proj2 (getPrices_success scenario scenarioSession) _ eq_refl)
    as (Hlen & Hbase & _).
  split; [exact Hlen|exact Hbase].
Defined.

Lemma getPrices_failure_witness :
  getPrices scenario failingSession
  = ([Finite (Q2Qc 10)], Some "no ticker for BUSD").
Proof.
  apply (getPrices_failure scenario failingSession ["A"] [] "B").
  - reflexivity.
  - intros c Hc. each_target Hc.
  - reflexivity.
Defined.

Lemma getQuantities_lookup_witness :
  getQuantities scenario (bbgo.Balances scenarioSession) !! 0%nat
  = Some (Finite (Q2Qc 5))
  ∧ getQuantities scenario ∅ !! 2%nat = Some (Finite 0).
Proof.
  split.
  - apply (getQuantities_lookup scenario (bbgo.Balances scenarioSession)
             0%nat "A"). reflexivity.
  - rewrite (getQuantities_lookup scenario ∅ 2%nat "USD" eq_refl).
    by rewrite lookup_empty.
Defined.

Lemma getSymbols_distinct_witness : NoDup (getSymbols scenario).
Proof.
  apply (proj2 (getSymbols_distinct scenario)).
  by apply (bool_decide_unpack _).
Defined.

Lemma Validate_symbols_witness :
  getSymbols scenario ≠ [] ∧ "USDUSD" ∉ getSymbols scenario.
Proof. apply (Validate_symbols scenario). reflexivity. Defined.

Lemma generateSubmitOrders_returns_iff_witness :
  ∃ orders,
    generateSubmitOrders amd64Cast scenario (finiteSlice scenarioPrices)
      (finiteSlice scenarioValues) (finiteSlice scenarioTargets) = Ok orders.
Proof.
  apply (proj1 (generateSubmitOrders_returns_iff amd64Cast scenario
                  (finiteSlice scenarioPrices) (finiteSlice scenarioValues)
                  (finiteSlice scenarioTargets))).
  simpl. lia.
Defined.


Lemma generateSubmitOrders_no_dead_band_witness :
  ∃ orders,
    generateSubmitOrders amd64Cast zeroThreshold unitPrices balancedValues
      balancedWeights = Ok orders
    ∧ length orders = 2%nat
    ∧ Symbol <$> orders = getSymbols zeroThreshold.
Proof.
  eexists. split; [vm_compute; reflexivity|].
  apply (generateSubmitOrders_no_dead_band amd64Cast zeroThreshold unitPrices
           balancedValues balancedWeights).
  - apply Qcle_refl.
  - vm_compute. reflexivity.
Defined.

Lemma logAssets_panic_iff_witness :
  logAssets scenario [lit 50 1; lit 20 1] [] []
  = Panicked (PanicMessage "len(weights)-1 != len(s.TargetCurrencies)").
Proof.
  apply (proj2 (proj1 (logAssets_panic_iff scenario [lit 50 1; lit 20 1]
                         [] []))).
  simpl. lia.
Defined.

Lemma logAssets_lines_witness :
  ∃ lines : list assetLog,
    logAssets scenario (finiteSlice scenarioValues)
      (finiteSlice scenarioPrices) [lit 5 1; lit 1 1; lit 50 1] = Ok lines
    ∧ length lines = 3%nat.
Proof.
  eexists. split; [vm_compute; reflexivity|].
  apply (proj1 (logAssets_lines scenario (finiteSlice scenarioValues)
                  (finiteSlice scenarioPrices) [lit 5 1; lit 1 1; lit 50 1]
                  _ ltac:(vm_compute; reflexivity))).
Defined.

Lemma Validate_first_violation_witness :
  Validate failingScenario = None
  ∧ Validate (scenarioWith (Q2Qc (-1)) (Q2Qc (-1)))
    = Some "threshold should not less than 0".
Proof.
  split; [reflexivity|].
  apply (proj2 (proj1 (proj2 (proj2
           (Validate_first_violation
              (scenarioWith (Q2Qc (-1)) (Q2Qc (-1)))))))).
  split; [done|]. split; [|reflexivity].
  intros Hin. simpl in Hin.
  repeat (apply elem_of_cons in Hin as [?|Hin]; [done|]).
  by apply elem_of_nil in Hin.
Defined.

Lemma rebalance_submits_iff_witness :
  ∃ c : cycle (list Order),
    rebalance amd64Cast id listStoreAdd scenario acceptingExecutor
      scenarioSession [] = Ok c
    ∧ is_Some (submitRequest c).
Proof.
  eexists. split; [vm_compute; reflexivity|].
  apply (proj2 (proj1 (rebalance_submits_iff amd64Cast id listStoreAdd
                         scenario acceptingExecutor scenarioSession [] _
                         ltac:(vm_compute; reflexivity)))).
  repeat split; reflexivity.
Defined.

Lemma rebalance_store_witness :
  ∃ (c : cycle (list Order)) (orders : list SubmitOrder),
    rebalance amd64Cast id listStoreAdd scenario acceptingExecutor
      scenarioSession [] = Ok c
    ∧ submitRequest c = Some orders
    ∧ cycleStore c
      = listStoreAdd [] (SubmitOrders acceptingExecutor orders).1.
Proof.
  do 2 eexists. split; [vm_compute; reflexivity|].
  split; [reflexivity|].
  apply (proj1 (proj2 (proj2 (rebalance_store amd64Cast id listStoreAdd
                                scenario acceptingExecutor scenarioSession
                                [] _ ltac:(vm_compute; reflexivity))))
           _ eq_refl eq_refl).
Defined.

Lemma rebalance_submitted_orders_witness :
  ∃ (c : cycle (list Order)) (o : SubmitOrder) (rest : list SubmitOrder),
    rebalance amd64Cast id listStoreAdd cappedScenario acceptingExecutor
      scenarioSession [] = Ok c
    ∧ submitRequest c = Some (o :: rest)
    ∧ Symbol o ∈ getSymbols cappedScenario
    ∧ Symbol o ≠ "USDUSD".
Proof.
  do 3 eexists. split; [vm_compute; reflexivity|].
  split; [reflexivity|].
  destruct (rebalance_submitted_orders amd64Cast id listStoreAdd
              cappedScenario acceptingExecutor scenarioSession [] _ _ _
              ltac:(vm_compute; reflexivity) eq_refl (list_elem_of_here _ _))
    as (Hsym & _ & Hvalid).
  split; [exact Hsym|]. apply Hvalid. reflexivity.
Defined.
